(** * scrape_smogon_price_range.py: price-range extraction and CSV enrichment

    A shallow embedding of [src/scrape_smogon_price_range.py].

    - Python [str] values are sequences of Unicode code points: [list N].
    - The two compiled patterns are lists of regex items run by a
      backtracking matcher with [re.search]'s priorities (leftmost start,
      greedy repetition, give back one character at a time).
    - Exceptions are an explicit [result] type; [try/except Exception] is a
      match on it.
    - Libraries the script calls but does not contain (BeautifulSoup,
      requests, the Unicode digit table, pandas' CSV reader) are Section
      variables. *)

From Stdlib Require Import ZArith NArith Ascii String Floats DecimalPos.
From stdpp Require Import base option list gmap strings.

Set Warnings "-clear-no-such-hyp".

Local Open Scope N_scope.

(** ** Text *)

Abbreviation text := (list N).

(** A source literal, as code points. *)
Definition lit (s : string) : text :=
  map N_of_ascii (list_ascii_of_string s).

(** [str.isspace] on one code point; the class behind [\s] of a [str]
    pattern and behind [str.strip()]. *)
Definition is_space (c : N) : bool :=
  ((9 <=? c) && (c <=? 13)) || ((28 <=? c) && (c <=? 32))
  || (c =? 0x85) || (c =? 0xA0) || (c =? 0x1680)
  || ((0x2000 <=? c) && (c <=? 0x200A))
  || (c =? 0x2028) || (c =? 0x2029) || (c =? 0x202F) || (c =? 0x205F)
  || (c =? 0x3000).

(** The ASCII part of the decimal-digit table: ['0'..'9'] with their values. *)
Definition ascii_decimal (c : N) : option N :=
  if (48 <=? c) && (c <=? 57) then Some (c - 48) else None.

(** The code points a literal of the pattern matches under [re.IGNORECASE]
    (a [str] pattern), for the ASCII literals the two patterns are made of:
    both ASCII cases, and the non-ASCII letters whose case folding meets
    [i], [s] and [k]. Characters without case match themselves. *)
Definition case_extras (lo : N) : list N :=
  if lo =? 105 then [0x130; 0x131]
  else if lo =? 115 then [0x17F]
  else if lo =? 107 then [0x212A]
  else [].

Definition ignorecase (l : N) : list N :=
  if (97 <=? l) && (l <=? 122) then l :: (l - 32) :: case_extras l
  else if (65 <=? l) && (l <=? 90) then (l + 32) :: l :: case_extras (l + 32)
  else [l].

Definition lit_match (l c : N) : bool := existsb (N.eqb c) (ignorecase l).

(** ** Exceptions *)

Inductive exn : Type :=
  | ConnectionError
  | ReadTimeout
  | HTTPError (status : Z)
  | ValueError
  | OverflowError
  | OtherException (name : string).

Inductive result (A : Type) : Type :=
  | Ok (a : A)
  | Raise (e : exn).
Arguments Ok {A} a.
Arguments Raise {A} e.

#[global] Instance result_ret : MRet result := fun _ a => Ok a.
#[global] Instance result_bind : MBind result := fun _ _ f r =>
  match r with
  | Ok a => f a
  | Raise e => Raise e
  end.

(** ** Regular expressions *)

Inductive cclass : Type :=
  | Space   (* \s *)
  | Digit.  (* \d *)

Inductive item : Type :=
  | Lit (l : N)                        (* one literal character *)
  | Star (k : cclass)                  (* k*          *)
  | Group (name : string) (k : cclass). (* (?P<name>k+) *)

Definition lits (s : string) : list item := map Lit (lit s).

(** The groups of a match object, last closed first. *)
Abbreviation groups := (list (string * text)).

Fixpoint group (m : groups) (name : string) : text :=
  match m with
  | [] => []
  | (n, s) :: m' => if String.eqb n name then s else group m' name
  end.

(** [str.strip()]: leading and trailing whitespace removed. *)
Fixpoint lstrip (s : text) : text :=
  match s with
  | c :: s' => if is_space c then lstrip s' else s
  | [] => []
  end.

Definition strip (s : text) : text := rev (lstrip (rev (lstrip s))).

(** [str(z)] and [f"{z}"] of an [int]: decimal, a minus sign when negative. *)
Fixpoint uint_text (u : Decimal.uint) : text :=
  match u with
  | Decimal.Nil => []
  | Decimal.D0 u => 48 :: uint_text u
  | Decimal.D1 u => 49 :: uint_text u
  | Decimal.D2 u => 50 :: uint_text u
  | Decimal.D3 u => 51 :: uint_text u
  | Decimal.D4 u => 52 :: uint_text u
  | Decimal.D5 u => 53 :: uint_text u
  | Decimal.D6 u => 54 :: uint_text u
  | Decimal.D7 u => 55 :: uint_text u
  | Decimal.D8 u => 56 :: uint_text u
  | Decimal.D9 u => 57 :: uint_text u
  end.

Definition str_int (z : Z) : text :=
  match Z.to_int z with
  | Decimal.Pos u => uint_text u
  | Decimal.Neg u => 45 :: uint_text u
  end.

(** [sys.int_info.default_max_str_digits]: the longest decimal string
    [int] converts. *)
Definition INT_MAX_STR_DIGITS : nat := 4300.

(** [max(a, b)] of two floats: [b] when [b > a], else [a]. *)
Definition py_max (a b : float) : float :=
  if PrimFloat.ltb a b then b else a.

(** [time.sleep(secs)] with a float: the interpreter turns the seconds into
    a signed 64-bit count of nanoseconds (it multiplies by 1e9 and rounds to
    a whole number, which moves no value across 2^63). NaN is a
    [ValueError]; a count outside [-2^63, 2^63) is an [OverflowError], so an
    infinite pause and any pause of about 9.2e9 seconds or more; a negative
    pause is a [ValueError]; otherwise the call returns. *)
Definition time_sleep (secs : float) : result unit :=
  if PrimFloat.is_nan secs then Raise ValueError
  else if negb (PrimFloat.leb (-0x1p63) (secs * 1e9)
                && PrimFloat.ltb (secs * 1e9) 0x1p63)
  then Raise OverflowError
  else if PrimFloat.ltb secs 0 then Raise ValueError
  else Ok tt.

(** ** The table *)

(** A scalar in a cell of the frame. [NA] is [pd.NA]; a float NaN is the
    missing value [read_csv] produces. *)
Inductive cell : Type :=
  | NA
  | Str (s : text)
  | Int (z : Z)
  | Float (f : float)
  | Bool (b : bool).

(** [pd.isna(v)] of a scalar. *)
Definition isna (v : cell) : bool :=
  match v with
  | NA => true
  | Float f => PrimFloat.is_nan f
  | _ => false
  end.

(** A frame with the default [RangeIndex]: the ordered column labels, and
    the rows in order, each a map from column label to cell; the index label
    of a row is its position. *)
Record DataFrame : Type := {
  columns : list text;
  rows : list (gmap text cell)
}.

(** [len(df)] *)
Definition len (df : DataFrame) : nat := length (rows df).

(** [df[col] = v] with a scalar [v]: every row gets [v] in column [col]; a
    new label goes to the end of the columns, an old one keeps its place. *)
Definition set_column (df : DataFrame) (col : text) (v : cell) : DataFrame :=
  {| columns := if bool_decide (col ∈ columns df) then columns df
                else columns df ++ [col];
     rows := (fun r => <[col := v]> r) <$> rows df |}.

(** [df.at[i, col] = v] *)
Definition set_at (df : DataFrame) (i : nat) (col : text) (v : cell)
  : DataFrame :=
  {| columns := columns df;
     rows := alter (fun r => <[col := v]> r) i (rows df) |}.

(** [list(df[col].items())]: the pairs (index label, value) of a column. *)
Definition items (df : DataFrame) (col : text) : list (nat * cell) :=
  imap (fun i r => (i, default NA (r !! col))) (rows df).

(** The cell of row [i] in column [col]. *)
Definition cell_at (df : DataFrame) (i : nat) (col : text) : option cell :=
  r ← rows df !! i; r !! col.

Definition low_high_col : text := lit "smogon_price_low_high".
Definition low_col : text := lit "smogon_price_low".
Definition high_col : text := lit "smogon_price_high".

(** ** The outside world *)

(** What [requests.get] returns when it does not raise. *)
Record response : Type := {
  status_code : Z;
  body : text   (* r.text *)
}.

(** [r.raise_for_status()] *)
Definition raise_for_status (r : response) : result unit :=
  if ((400 <=? status_code r) && (status_code r <? 600))%Z
  then Raise (HTTPError (status_code r))
  else Ok tt.

Definition USER_AGENT : text :=
  lit "Mozilla/5.0 (X11; Linux x86_64) AppleWebKit/537.36 (KHTML, like Gecko) Chrome/120.0 Safari/537.36".

(** The calls of a run that reach outside the process, in order, each
    recorded when it is made, whether it then returns or raises. *)
Inductive event : Type :=
  | EvGet (url : text) (user_agent : text) (timeout : Z)
  | EvSleep (seconds : float)
  | EvToCsv (path : text) (df : DataFrame)
  | EvPrint (line : text).

(** The parsed command line. *)
Record Args : Type := {
  input : text;
  output : text;
  url_col : text;
  delay : float;
  timeout : Z
}.

(** How the process ends: [main] returns, [SystemExit(message)] is raised,
    or another exception leaves [main]. *)
Inductive status : Type :=
  | Returned
  | SystemExit (message : text)
  | Uncaught (e : exn).

(** The interpreter's exit status. *)
Definition exit_code (s : status) : Z :=
  match s with
  | Returned => 0
  | SystemExit _ => 1
  | Uncaught _ => 1
  end.

(** ** A small world for the examples *)

Definition demo_url_col : text := lit "smogon_draft_url".

Definition demo_row (name : string) (url : cell) : gmap text cell :=
  <[lit "name" := Str (lit name)]> (<[demo_url_col := url]> ∅).

(** Five rows: a page with a range, a missing URL, a page that answers 404,
    a page with a single value, and a URL of spaces only. *)
Definition demo_frame : DataFrame :=
  {| columns := [lit "name"; demo_url_col];
     rows := [demo_row "Abra" (Str (lit "https://example.test/draft"));
              demo_row "Bulbasaur" (Float PrimFloat.nan);
              demo_row "Cubone" (Str (lit " https://example.test/gone "));
              demo_row "Ditto" (Str (lit "https://example.test/single"));
              demo_row "Eevee" (Str (lit "   "))] |}.

(** The world counts the requests it has answered. *)
Definition demo_get (w : nat) (url user_agent : text) (timeout : Z)
  : nat * result response :=
  (S w,
   if decide (url = lit "https://example.test/draft") then
     Ok {| status_code := 200; body := lit "Cost. Price Range: 8-9 points" |}
   else if decide (url = lit "https://example.test/gone") then
     Ok {| status_code := 404; body := lit "Price Range: 1-2 points" |}
   else if decide (url = lit "https://example.test/single") then
     Ok {| status_code := 200; body := lit "price range: 5 POINTS" |}
   else Raise ConnectionError).

Definition demo_read_csv (w : nat) (path : text) : result DataFrame :=
  if decide (path = lit "in.csv") then Ok demo_frame
  else Raise (OtherException "FileNotFoundError").

Definition demo_args : Args :=
  {| input := lit "in.csv";
     output := lit "out.csv";
     url_col := demo_url_col;
     delay := (-1)%float;
     timeout := 25 |}.

(** The same run asked for a column the frame does not have. *)
Definition demo_args_bad : Args :=
  {| input := lit "in.csv";
     output := lit "out.csv";
     url_col := lit "url";
     delay := (-1)%float;
     timeout := 25 |}.

(** [repr] of a list of labels that need no escaping. *)
Fixpoint demo_repr_items (l : list text) : text :=
  match l with
  | [] => []
  | [c] => [39] ++ c ++ [39]
  | c :: l' => [39] ++ c ++ [39; 44; 32] ++ demo_repr_items l'
  end.

Definition demo_list_repr (l : list text) : text :=
  [91] ++ demo_repr_items l ++ [93].

(** The demo frame holds no float but NaN, whose [str] is "nan". *)
Definition demo_float_str (f : float) : text := lit "nan".



(** The frame the demo run writes, and a reader that gives the demo frame
    to a first run (worlds 0 to 2) and the written frame to a later one. *)
Definition demo_out_row (name : string) (url label low high : cell)
  : gmap text cell :=
  <[high_col := high]>
    (<[low_col := low]> (<[low_high_col := label]> (demo_row name url))).

Definition demo_out_frame : DataFrame :=
  {| columns := [lit "name"; demo_url_col; low_high_col; low_col; high_col];
     rows := [demo_out_row "Abra" (Str (lit "https://example.test/draft"))
                (Str (lit "8-9")) (Int 8) (Int 9);
              demo_out_row "Bulbasaur" (Float PrimFloat.nan)
                (Str (lit "N/A")) NA NA;
              demo_out_row "Cubone" (Str (lit " https://example.test/gone "))
                (Str (lit "N/A")) NA NA;
              demo_out_row "Ditto" (Str (lit "https://example.test/single"))
                (Str (lit "5-5")) (Int 5) (Int 5);
              demo_out_row "Eevee" (Str (lit "   "))
                (Str (lit "N/A")) NA NA] |}.

Definition demo_read_again (w : nat) (path : text) : result DataFrame :=
  if (w <? 3)%nat then Ok demo_frame else Ok demo_out_frame.





(** An integer of 4301 digits, one more than [int] converts, in a range
    form and in a single form. *)
Definition demo_long_digits : text := replicate 4301 49.

Definition demo_long_range : text :=
  lit "Price Range: " ++ demo_long_digits ++ lit "-2 points".


(** Markup without tags, entities or outer whitespace is its own text. *)
Definition plain_text (html : text) : result text := Ok html.

Section Script.

(** [unicodedata.decimal]: the value of a code point of category Nd, the
    class behind [\d] of a [str] pattern and the digits [int] accepts. *)
Variable decimal : N -> option N.

(** [BeautifulSoup(html, "lxml").get_text(separator=" ", strip=True)]. *)
Variable get_text : text -> result text.

(** [str(f)] of a float and [repr(l)] of a list of [str]. *)
Variable float_str : float -> text.
Variable list_repr : list text -> text.

(** The network and the file system: [requests.get] answers or raises and
    may change the world; [pd.read_csv] loads a frame or raises. *)
Variable World : Type.
Variable requests_get : World -> text -> text -> Z -> World * result response.
Variable read_csv : World -> text -> result DataFrame.

Definition in_class (k : cclass) (c : N) : bool :=
  match k with
  | Space => is_space c
  | Digit => bool_decide (is_Some (decimal c))
  end.

(** A greedy repetition of class [k]: extend [acc] with the characters of
    [s] that are in [k], then try the continuation on the longest run first
    and on failure give the characters back one by one. *)
Definition greedy (k : cclass) (cont : text -> text -> option groups)
  : text -> text -> option groups :=
  fix go (acc s : text) : option groups :=
    match s with
    | c :: s' =>
        if in_class k c then
          match go (acc ++ [c]) s' with
          | Some r => Some r
          | None => cont acc s
          end
        else cont acc s
    | [] => cont acc []
    end.

(** Matching at a fixed start: [run p s m] matches the items [p] against a
    prefix of [s], [m] being the groups closed so far. *)
Fixpoint run (p : list item) (s : text) (m : groups) {struct p}
  : option groups :=
  match p with
  | [] => Some m
  | Lit l :: p' =>
      match s with
      | c :: s' => if lit_match l c then run p' s' m else None
      | [] => None
      end
  | Star k :: p' => greedy k (fun _ s' => run p' s' m) [] s
  | Group g k :: p' =>
      match s with
      | c :: s' =>
          if in_class k c
          then greedy k (fun w s'' => run p' s'' ((g, w) :: m)) [c] s'
          else None
      | [] => None
      end
  end.

(** [pattern.search(text)]: the match at the leftmost start that has one. *)
Fixpoint search (p : list item) (s : text) : option groups :=
  match run p s [] with
  | Some m => Some m
  | None =>
      match s with
      | [] => None
      | _ :: s' => search p s'
      end
  end.

(** r"Price Range:\s*(?P<low>\d+)\s*-\s*(?P<high>\d+)\s*points", IGNORECASE *)
Definition PRICE_RANGE_RE : list item :=
  lits "Price Range:"
    ++ [Star Space; Group "low" Digit; Star Space; Lit 45; Star Space;
        Group "high" Digit; Star Space]
    ++ lits "points".

(** r"Price Range:\s*(?P<val>\d+)\s*points", IGNORECASE *)
Definition PRICE_SINGLE_RE : list item :=
  lits "Price Range:"
    ++ [Star Space; Group "val" Digit; Star Space]
    ++ lits "points".

(** [int(s)] on a string of decimal digits: [ValueError] when the string
    is longer than the interpreter's cap on decimal strings (leading zeros
    count), else the base-ten value; [ValueError] too on a string that is
    empty or not made of digits, which the groups of the two patterns never
    are. *)
Fixpoint digits_value (acc : Z) (s : text) : option Z :=
  match s with
  | [] => Some acc
  | c :: s' =>
      match decimal c with
      | Some d => digits_value (10 * acc + Z.of_N d) s'
      | None => None
      end
  end.

Definition py_int (s : text) : result Z :=
  match s with
  | [] => Raise ValueError
  | _ => if (INT_MAX_STR_DIGITS <? length s)%nat then Raise ValueError
         else match digits_value 0 s with
              | Some v => Ok v
              | None => Raise ValueError
              end
  end.

(** Lines 39-57. *)
Definition extract_price_range_from_html (html : text)
  : result (option (Z * Z)) :=
  text ← get_text html;
  match search PRICE_RANGE_RE text with
  | Some m =>
      low ← py_int (group m "low");
      high ← py_int (group m "high");
      Ok (Some (low, high))
  | None =>
      match search PRICE_SINGLE_RE text with
      | Some m =>
          v ← py_int (group m "val");
          Ok (Some (v, v))
      | None => Ok None
      end
  end.



(** ** The pipeline *)

(** Lines 60-70: one request, [raise_for_status], the body. *)
Definition fetch_html (w : World) (url : text) (timeout : Z)
  : World * result text :=
  let '(w', r) := requests_get w url USER_AGENT timeout in
  (w', r ← r; _ ← raise_for_status r; Ok (body r)).

(** [str(v)] of a cell. *)
Definition py_str (v : cell) : text :=
  match v with
  | NA => lit "<NA>"
  | Str s => s
  | Int z => str_int z
  | Float f => float_str f
  | Bool true => lit "True"
  | Bool false => lit "False"
  end.

(** [pd.isna(url) or not str(url).strip()] *)
Definition is_blank (url : cell) : bool :=
  isna url || bool_decide (strip (py_str url) = []).

Record state : Type := {
  st_df : DataFrame;
  st_world : World;
  st_trace : list event
}.

(** Lines 112-114: the three cells of row [i]. *)
Definition write_price (df : DataFrame) (i : nat) (low high : Z) : DataFrame :=
  let df := set_at df i low_high_col
              (Str (str_int low ++ [45] ++ str_int high)) in
  let df := set_at df i low_col (Int low) in
  set_at df i high_col (Int high).

(** Lines 105-114, the [try] block of one row: the frame it leaves, or
    the exception it raises. *)
Definition attempt (df : DataFrame) (i : nat) (fetched : result text)
  : result DataFrame :=
  html ← fetched;
  pr ← extract_price_range_from_html html;
  match pr with
  | None => Ok df
  | Some (low, high) => Ok (write_price df i low high)
  end.

(** Lines 98-120: one turn of the loop over the (index, url) pairs. It
    gives the state it leaves and, as the [try] block catches what the
    request and the extraction raise, the only exception that can leave it:
    the one of [time.sleep] on line 120. *)
Definition loop_body (args : Args) (st : state) (it : nat * cell)
  : state * result unit :=
  let '(i, url) := it in
  if is_blank url then (st, Ok tt)
  else
    let url := strip (py_str url) in
    let '(w, fetched) := fetch_html (st_world st) url (timeout args) in
    let df := match attempt (st_df st) i fetched with
              | Ok df => df
              | Raise _ => st_df st   (* except Exception: pass *)
              end in
    ({| st_df := df;
        st_world := w;
        st_trace := st_trace st
                      ++ [EvGet url USER_AGENT (timeout args);
                          EvSleep (py_max 0 (delay args))] |},
     time_sleep (py_max 0 (delay args))).

(** The [for] loop: turn after turn, left at the first exception. *)
Fixpoint loop_from (args : Args) (st : state) (its : list (nat * cell))
  : state * result unit :=
  match its with
  | [] => (st, Ok tt)
  | it :: its' =>
      match loop_body args st it with
      | (st', Ok _) => loop_from args st' its'
      | (st', Raise e) => (st', Raise e)
      end
  end.

(** The whole loop, from the frame [df] and the world [w]. *)
Definition loop (args : Args) (df : DataFrame) (w : World)
  (its : list (nat * cell)) : state * result unit :=
  loop_from args {| st_df := df; st_world := w; st_trace := [] |} its.

Record outcome : Type := {
  exit : status;
  world : World;
  trace : list event
}.

(** The frame after the three columns are initialised. *)
Definition init_columns (df : DataFrame) : DataFrame :=
  let df := set_column df low_high_col (Str (lit "N/A")) in
  let df := set_column df low_col NA in
  set_column df high_col NA.

(** Lines 73-123, [args] being what [argparse] returns. *)
Definition main (args : Args) (w : World) : outcome :=
  match read_csv w (input args) with
  | Raise e => {| exit := Uncaught e; world := w; trace := [] |}
  | Ok df =>
      if negb (bool_decide (url_col args ∈ columns df)) then
        {| exit := SystemExit
                     (lit "URL column '" ++ url_col args
                        ++ lit "' not found. Available columns: "
                        ++ list_repr (columns df));
           world := w;
           trace := [] |}
      else
        let df := init_columns df in
        match loop args df w (items df (url_col args)) with
        | (st, Ok _) =>
            {| exit := Returned;
               world := st_world st;
               trace := st_trace st
                          ++ [EvToCsv (output args) (st_df st);
                              EvPrint (lit "Wrote: " ++ output args)] |}
        | (st, Raise e) =>
            {| exit := Uncaught e;
               world := st_world st;
               trace := st_trace st |}
        end
  end.

(** ** Specification vocabulary *)

(** The declarative reading of a pattern: [matches p s m m'] when a prefix of
    [s] splits into pieces, one per item, each piece in the item's language;
    the groups are pushed on [m], giving [m']. No priority is involved. *)
Inductive matches : list item -> text -> groups -> groups -> Prop :=
  | matches_nil s m : matches [] s m m
  | matches_lit l c p s m m' :
      lit_match l c = true -> matches p s m m' ->
      matches (Lit l :: p) (c :: s) m m'
  | matches_star k w p s m m' :
      forallb (in_class k) w = true -> matches p s m m' ->
      matches (Star k :: p) (w ++ s) m m'
  | matches_group g k w p s m m' :
      w <> [] -> forallb (in_class k) w = true ->
      matches p s ((g, w) :: m) m' ->
      matches (Group g k :: p) (w ++ s) m m'.

Definition cclass_eqb (k k' : cclass) : bool :=
  match k, k' with
  | Space, Space | Digit, Digit => true
  | _, _ => false
  end.

(** [outside k p]: whatever [p] matches starts with a character outside
    class [k]. [separated p]: every repetition of [p] is followed by such a
    rest, so giving characters back never helps. *)
Fixpoint outside (k : cclass) (p : list item) : bool :=
  match p with
  | [] => false
  | Lit l :: _ => forallb (fun c => negb (in_class k c)) (ignorecase l)
  | Star k' :: q => negb (cclass_eqb k k') && outside k q
  | Group _ k' :: _ => negb (cclass_eqb k k')
  end.

Fixpoint separated (p : list item) : bool :=
  match p with
  | [] => true
  | Lit _ :: q => separated q
  | Star k :: q | Group _ k :: q => outside k q && separated q
  end.

(** [s] spells [pat] up to the case folding of the IGNORECASE flag. *)
Definition ci_eq (pat s : text) : Prop :=
  Forall2 (fun l c => lit_match l c = true) pat s.

(** Whitespace (possibly none) and an integer (at least one digit). *)
Definition blanks (w : text) : Prop := forallb (in_class Space) w = true.
Definition integer (d : text) : Prop :=
  d <> [] /\ forallb (in_class Digit) d = true.

(** [s] begins with the range form: "Price Range:", an integer [d1], a
    hyphen, an integer [d2], "points", whitespace allowed where the pattern
    has [\s*]. *)
Definition range_form (s d1 d2 : text) : Prop :=
  exists kw w1 w2 w3 w4 pts rest,
    s = kw ++ w1 ++ d1 ++ w2 ++ [45] ++ w3 ++ d2 ++ w4 ++ pts ++ rest
    /\ ci_eq (lit "Price Range:") kw /\ blanks w1 /\ integer d1
    /\ blanks w2 /\ blanks w3 /\ integer d2 /\ blanks w4
    /\ ci_eq (lit "points") pts.

(** [s] begins with the single form: "Price Range:", an integer [d],
    "points". *)
Definition single_form (s d : text) : Prop :=
  exists kw w1 w2 pts rest,
    s = kw ++ w1 ++ d ++ w2 ++ pts ++ rest
    /\ ci_eq (lit "Price Range:") kw /\ blanks w1 /\ integer d
    /\ blanks w2 /\ ci_eq (lit "points") pts.

(** The forms at offset [n] of a text. *)
Definition range_at (t : text) (n : nat) (d1 d2 : text) : Prop :=
  (n <= length t)%nat /\ range_form (drop n t) d1 d2.
Definition single_at (t : text) (n : nat) (d : text) : Prop :=
  (n <= length t)%nat /\ single_form (drop n t) d.

(** The number a string of digits denotes. *)
Definition int_of (d : text) : Z := default 0%Z (digits_value 0 d).

(** The three output cells of row [k]: at their defaults, or holding a
    price. *)
Definition output_cols : list text := [low_high_col; low_col; high_col].




(** The outside calls one row gives rise to: none for a blank URL, else the
    request and the pause. *)
Definition row_events (args : Args) (it : nat * cell) : list event :=
  if is_blank (snd it) then []
  else [EvGet (strip (py_str (snd it))) USER_AGENT (timeout args);
        EvSleep (py_max 0 (delay args))].

(** The rows as the loop reads them, and the state in which it reaches the
    row at position [k]. *)
Definition loop_items (args : Args) (df : DataFrame) : list (nat * cell) :=
  items (init_columns df) (url_col args).


(** The files a run writes: path and frame of each [to_csv]. *)
Definition written (o : outcome) : list (text * DataFrame) :=
  omap (fun e => match e with
                 | EvToCsv path df => Some (path, df)
                 | _ => None
                 end) (trace o).

(** The requests a run makes: the URL of each [requests.get]. *)
Definition requested (tr : list event) : list text :=
  omap (fun e => match e with
                 | EvGet url _ _ => Some url
                 | _ => None
                 end) tr.

(** ** The matcher *)

Section Matcher.

(** Two facts of the Unicode tables: the ASCII digits are ['0'..'9'] with
    their values, and no whitespace character is a decimal digit. *)
Hypothesis decimal_ascii : forall c, c < 128 -> decimal c = ascii_decimal c.
Hypothesis decimal_space : forall c, is_space c = true -> decimal c = None.

Lemma class_disjoint k k' c :
  cclass_eqb k k' = false -> in_class k c = true -> in_class k' c = false.
Proof.
  destruct k, k'; simpl; try discriminate; intros _ H.
  - rewrite (decimal_space c H). reflexivity.
  - destruct (is_space c) eqn:E; [|reflexivity].
    rewrite (decimal_space c E) in H. discriminate.
Qed.

Lemma greedy_sound k cont s : forall acc r,
  greedy k cont acc s = Some r ->
  exists w s', s = w ++ s' /\ forallb (in_class k) w = true
               /\ cont (acc ++ w) s' = Some r.
Proof.
  induction s as [|c s IH]; intros acc r H; simpl in H.
  - exists [], []. simpl. rewrite app_nil_r. auto.
  - destruct (in_class k c) eqn:E.
    + destruct (greedy k cont (acc ++ [c]) s) as [r'|] eqn:G.
      * inversion H; subst r'.
        destruct (IH _ _ G) as (w & s' & -> & Hw & Hc).
        exists (c :: w), s'. simpl. rewrite E, Hw.
        rewrite <- app_assoc in Hc. auto.
      * exists [], (c :: s). simpl. rewrite app_nil_r. auto.
    + exists [], (c :: s). simpl. rewrite app_nil_r. auto.
Qed.

Lemma greedy_longest k cont w s r : forall acc,
  forallb (in_class k) w = true ->
  (forall c t, s = c :: t -> in_class k c = false) ->
  cont (acc ++ w) s = Some r ->
  greedy k cont acc (w ++ s) = Some r.
Proof.
  induction w as [|c w IH]; intros acc Hw Hs Hc; simpl in *.
  - rewrite app_nil_r in Hc. destruct s as [|c t]; [exact Hc|].
    simpl. rewrite (Hs c t eq_refl). exact Hc.
  - apply andb_prop in Hw as [E Hw]. rewrite E.
    rewrite (IH (acc ++ [c]) Hw Hs); [reflexivity|].
    rewrite <- app_assoc. exact Hc.
Qed.

(** What [run] returns is a match in the declarative sense. *)
Lemma run_sound p : forall s m m',
  run p s m = Some m' -> matches p s m m'.
Proof.
  induction p as [|[l|k|g k] p IH]; intros s m m' H; simpl in H.
  - inversion H. constructor.
  - destruct s as [|c s]; [discriminate|].
    destruct (lit_match l c) eqn:E; [|discriminate].
    constructor; auto.
  - apply greedy_sound in H as (w & s' & -> & Hw & Hc).
    constructor; auto.
  - destruct s as [|c s]; [discriminate|].
    destruct (in_class k c) eqn:E; [|discriminate].
    apply greedy_sound in H as (w & s' & -> & Hw & Hc).
    change (c :: w ++ s') with ((c :: w) ++ s').
    constructor; [discriminate| simpl; rewrite E; exact Hw | auto].
Qed.

Lemma lit_match_elem l c : lit_match l c = true -> In c (ignorecase l).
Proof.
  unfold lit_match. rewrite existsb_exists.
  intros (x & Hx & E). apply N.eqb_eq in E. subst. exact Hx.
Qed.

Lemma outside_fail k p : forall c t m,
  outside k p = true -> in_class k c = true -> run p (c :: t) m = None.
Proof.
  induction p as [|[l|k'|g k'] p IH]; intros c t m Ho Hc; simpl in Ho.
  - discriminate.
  - simpl. destruct (lit_match l c) eqn:E; [|reflexivity].
    apply lit_match_elem in E.
    rewrite forallb_forall in Ho. specialize (Ho c E).
    rewrite Hc in Ho. discriminate.
  - apply andb_prop in Ho as [Hk Ho]. apply negb_true_iff in Hk.
    simpl. rewrite (class_disjoint k k' c Hk Hc). auto.
  - apply negb_true_iff in Ho.
    simpl. rewrite (class_disjoint k k' c Ho Hc). reflexivity.
Qed.

(** On a separated pattern the declarative match is what [run] returns. *)
Lemma matches_run p s m m' :
  separated p = true -> matches p s m m' -> run p s m = Some m'.
Proof.
  intros Hsep H. induction H as
    [s m | l c p s m m' Hl H IH | k w p s m m' Hw H IH
     | g k w p s m m' Hne Hw H IH]; simpl in Hsep.
  - reflexivity.
  - simpl. rewrite Hl. auto.
  - apply andb_prop in Hsep as [Ho Hsep]. specialize (IH Hsep).
    simpl. apply greedy_longest; auto.
    intros c t -> . destruct (in_class k c) eqn:E; [|reflexivity].
    rewrite (outside_fail k p c t m Ho E) in IH. discriminate.
  - apply andb_prop in Hsep as [Ho Hsep]. specialize (IH Hsep).
    destruct w as [|c w]; [congruence|].
    simpl in Hw. apply andb_prop in Hw as [Ec Hw].
    simpl. rewrite Ec. apply greedy_longest; auto.
    intros c' t -> . destruct (in_class k c') eqn:E; [|reflexivity].
    rewrite (outside_fail k p c' t _ Ho E) in IH. discriminate.
Qed.

Lemma matches_nil_inv s m m' : matches [] s m m' -> m' = m.
Proof. inversion 1; reflexivity. Qed.

Lemma matches_lit_inv l p s m m' :
  matches (Lit l :: p) s m m' ->
  exists c s', s = c :: s' /\ lit_match l c = true /\ matches p s' m m'.
Proof. inversion 1; subst; eauto. Qed.

Lemma matches_star_inv k p s m m' :
  matches (Star k :: p) s m m' ->
  exists w s', s = w ++ s' /\ forallb (in_class k) w = true
               /\ matches p s' m m'.
Proof. inversion 1; subst; eauto. Qed.

Lemma matches_group_inv g k p s m m' :
  matches (Group g k :: p) s m m' ->
  exists w s', s = w ++ s' /\ w <> [] /\ forallb (in_class k) w = true
               /\ matches p s' ((g, w) :: m) m'.
Proof. inversion 1; subst; eauto 10. Qed.

(** A run of literals matches exactly the strings that spell it. *)
Lemma matches_lits ls p : forall s m m',
  matches (map Lit ls ++ p) s m m' <->
  exists kw rest, s = kw ++ rest /\ ci_eq ls kw /\ matches p rest m m'.
Proof.
  induction ls as [|l ls IH]; intros s m m'; simpl.
  - split.
    + intros H. exists [], s. repeat split; [constructor | exact H].
    + intros (kw & rest & -> & Hk & H). inversion Hk; subst. exact H.
  - split.
    + intros H. apply matches_lit_inv in H as (c & s' & -> & Hc & H).
      apply IH in H as (kw & rest & -> & Hk & H).
      exists (c :: kw), rest. repeat split; [constructor; auto | exact H].
    + intros (kw & rest & -> & Hk & H). inversion Hk as [|? c ? kw' Hc Hk']; subst.
      simpl. constructor; [exact Hc|]. apply IH. eauto.
Qed.

Lemma matches_range s m' :
  matches PRICE_RANGE_RE s [] m' <->
  exists d1 d2, range_form s d1 d2 /\ m' = [("high"%string, d2); ("low"%string, d1)].
Proof.
  unfold PRICE_RANGE_RE, lits. rewrite matches_lits. split.
  - intros (kw & r0 & -> & Hkw & H).
    apply matches_star_inv in H as (w1 & r1 & -> & Hw1 & H).
    apply matches_group_inv in H as (d1 & r2 & -> & Hn1 & Hd1 & H).
    apply matches_star_inv in H as (w2 & r3 & -> & Hw2 & H).
    apply matches_lit_inv in H as (c & r4 & -> & Hc & H).
    apply matches_star_inv in H as (w3 & r5 & -> & Hw3 & H).
    apply matches_group_inv in H as (d2 & r6 & -> & Hn2 & Hd2 & H).
    apply matches_star_inv in H as (w4 & r7 & -> & Hw4 & H).
    rewrite <- (app_nil_r (map Lit _)) in H.
    apply matches_lits in H as (pts & rest & -> & Hpts & H).
    apply matches_nil_inv in H.
    apply lit_match_elem in Hc. simpl in Hc. destruct Hc as [<-|[]].
    exists d1, d2. split; [|exact H].
    exists kw, w1, w2, w3, w4, pts, rest. unfold blanks, integer. auto 15.
  - intros (d1 & d2 & (kw & w1 & w2 & w3 & w4 & pts & rest & -> & Hkw & Hw1
                       & [Hn1 Hd1] & Hw2 & Hw3 & [Hn2 Hd2] & Hw4 & Hpts) & ->).
    exists kw. eexists. split; [reflexivity|]. split; [exact Hkw|].
    apply matches_star; [exact Hw1|].
    apply matches_group; [exact Hn1 | exact Hd1 |].
    apply matches_star; [exact Hw2|].
    change ([45] ++ w3 ++ d2 ++ w4 ++ pts ++ rest)
      with (45 :: w3 ++ d2 ++ w4 ++ pts ++ rest).
    apply matches_lit; [reflexivity|].
    apply matches_star; [exact Hw3|].
    apply matches_group; [exact Hn2 | exact Hd2 |].
    apply matches_star; [exact Hw4|].
    rewrite <- (app_nil_r (map Lit _)). apply matches_lits.
    exists pts, rest. repeat split; [exact Hpts | constructor].
Qed.

Lemma matches_single s m' :
  matches PRICE_SINGLE_RE s [] m' <->
  exists d, single_form s d /\ m' = [("val"%string, d)].
Proof.
  unfold PRICE_SINGLE_RE, lits. rewrite matches_lits. split.
  - intros (kw & r0 & -> & Hkw & H).
    apply matches_star_inv in H as (w1 & r1 & -> & Hw1 & H).
    apply matches_group_inv in H as (d & r2 & -> & Hn & Hd & H).
    apply matches_star_inv in H as (w2 & r3 & -> & Hw2 & H).
    rewrite <- (app_nil_r (map Lit _)) in H.
    apply matches_lits in H as (pts & rest & -> & Hpts & H).
    apply matches_nil_inv in H.
    exists d. split; [|exact H].
    exists kw, w1, w2, pts, rest. unfold blanks, integer. auto 10.
  - intros (d & (kw & w1 & w2 & pts & rest & -> & Hkw & Hw1
                 & [Hn Hd] & Hw2 & Hpts) & ->).
    exists kw. eexists. split; [reflexivity|]. split; [exact Hkw|].
    apply matches_star; [exact Hw1|].
    apply matches_group; [exact Hn | exact Hd |].
    apply matches_star; [exact Hw2|].
    rewrite <- (app_nil_r (map Lit _)). apply matches_lits.
    exists pts, rest. repeat split; [exact Hpts | constructor].
Qed.

Lemma digit_ascii c :
  c < 128 -> in_class Digit c = bool_decide (is_Some (ascii_decimal c)).
Proof. intros H. simpl. rewrite (decimal_ascii c H). reflexivity. Qed.

Lemma separated_range : separated PRICE_RANGE_RE = true.
Proof.
  let p := eval vm_compute in PRICE_RANGE_RE in change PRICE_RANGE_RE with p.
  cbn -[in_class].
  rewrite !digit_ascii by reflexivity. reflexivity.
Qed.

Lemma separated_single : separated PRICE_SINGLE_RE = true.
Proof.
  let p := eval vm_compute in PRICE_SINGLE_RE in change PRICE_SINGLE_RE with p.
  cbn -[in_class].
  rewrite !digit_ascii by reflexivity. reflexivity.
Qed.

(** At a fixed start the range pattern matches exactly the range form, and
    its groups are the two integers. *)
Lemma run_range s d1 d2 :
  range_form s d1 d2 ->
  run PRICE_RANGE_RE s [] = Some [("high"%string, d2); ("low"%string, d1)].
Proof.
  intros H. apply matches_run; [exact separated_range|].
  apply matches_range; eauto.
Qed.

Lemma run_range_inv s m :
  run PRICE_RANGE_RE s [] = Some m ->
  exists d1 d2, range_form s d1 d2
                /\ m = [("high"%string, d2); ("low"%string, d1)].
Proof. intros H. apply matches_range, run_sound, H. Qed.

Lemma run_single s d :
  single_form s d -> run PRICE_SINGLE_RE s [] = Some [("val"%string, d)].
Proof.
  intros H. apply matches_run; [exact separated_single|].
  apply matches_single; eauto.
Qed.

Lemma run_single_inv s m :
  run PRICE_SINGLE_RE s [] = Some m ->
  exists d, single_form s d /\ m = [("val"%string, d)].
Proof. intros H. apply matches_single, run_sound, H. Qed.

(** [search] returns the match at the first offset where [run] succeeds. *)
Lemma search_Some p s : forall m,
  search p s = Some m <->
  exists n, (n <= length s)%nat /\ run p (drop n s) [] = Some m
            /\ forall j, (j < n)%nat -> run p (drop j s) [] = None.
Proof.
  induction s as [|c s IH]; intros m; simpl.
  - split.
    + intros H. exists 0%nat. simpl. destruct (run p [] []); [|discriminate].
      repeat split; [lia | exact H | lia].
    + intros (n & Hn & H & _). assert (n = 0)%nat as -> by lia.
      simpl in H. rewrite H. reflexivity.
  - destruct (run p (c :: s) []) as [m0|] eqn:E.
    + split.
      * intros H. exists 0%nat. simpl. repeat split; [lia | congruence | lia].
      * intros (n & Hn & H & Hj). destruct n as [|n].
        -- simpl in H. congruence.
        -- specialize (Hj 0%nat ltac:(lia)). simpl in Hj. congruence.
    + rewrite IH. split.
      * intros (n & Hn & H & Hj). exists (S n). simpl.
        repeat split; [lia | exact H |].
        intros [|j] Hlt; simpl; [exact E | apply Hj; lia].
      * intros (n & Hn & H & Hj). destruct n as [|n].
        -- simpl in H. congruence.
        -- exists n. simpl in H. repeat split; [lia | exact H |].
           intros j Hlt. apply (Hj (S j)). lia.
Qed.

Lemma search_None p s :
  search p s = None <->
  forall j, (j <= length s)%nat -> run p (drop j s) [] = None.
Proof.
  induction s as [|c s IH]; simpl.
  - split.
    + intros H j Hj. assert (j = 0)%nat as -> by lia. simpl.
      destruct (run p [] []); [discriminate | reflexivity].
    + intros H. specialize (H 0%nat ltac:(lia)). simpl in H.
      rewrite H. reflexivity.
  - split.
    + intros H [|j] Hj; simpl.
      * destruct (run p (c :: s) []); [discriminate | reflexivity].
      * destruct (run p (c :: s) []); [discriminate|].
        apply IH; [exact H | lia].
    + intros H. pose proof (H 0%nat ltac:(lia)) as H0. simpl in H0.
      rewrite H0. apply IH. intros j Hj. apply (H (S j)). lia.
Qed.

(** [int] accepts what [\d+] captures. *)
Lemma digits_value_Some d : forall acc,
  forallb (in_class Digit) d = true -> is_Some (digits_value acc d).
Proof.
  induction d as [|c d IH]; intros acc H; simpl in *.
  - eauto.
  - apply andb_prop in H as [Hc H].
    apply bool_decide_eq_true in Hc. destruct Hc as [v ->]. auto.
Qed.

Lemma py_int_integer d :
  integer d -> (length d <= INT_MAX_STR_DIGITS)%nat ->
  py_int d = Ok (int_of d).
Proof.
  intros [Hn Hd] Hlen. unfold py_int, int_of.
  destruct (digits_value_Some d 0%Z Hd) as [v ->].
  destruct d; [congruence|].
  apply Nat.ltb_ge in Hlen. rewrite Hlen. reflexivity.
Qed.

Lemma py_int_long d :
  d <> [] -> (INT_MAX_STR_DIGITS < length d)%nat -> py_int d = Raise ValueError.
Proof.
  intros Hn Hlen. unfold py_int. destruct d; [congruence|].
  apply Nat.ltb_lt in Hlen. rewrite Hlen. reflexivity.
Qed.

Lemma py_int_Ok s v :
  py_int s = Ok v -> v = int_of s /\ (length s <= INT_MAX_STR_DIGITS)%nat.
Proof.
  unfold py_int, int_of. destruct s as [|c s]; [discriminate|].
  destruct (INT_MAX_STR_DIGITS <? length (c :: s))%nat eqn:E; [discriminate|].
  apply Nat.ltb_ge in E.
  destruct (digits_value 0 (c :: s)) as [a|]; [|discriminate].
  intros H. inversion H. auto.
Qed.

Lemma py_int_raises s e : py_int s = Raise e -> e = ValueError.
Proof.
  unfold py_int. destruct s as [|c s]; [intros H; inversion H; reflexivity|].
  destruct (_ <? _)%nat; [intros H; inversion H; reflexivity|].
  destruct (digits_value 0 (c :: s)); [discriminate|].
  intros H; inversion H; reflexivity.
Qed.

Lemma range_form_integers s d1 d2 :
  range_form s d1 d2 -> integer d1 /\ integer d2.
Proof.
  intros (kw & w1 & w2 & w3 & w4 & pts & rest & H). tauto.
Qed.

Lemma single_form_integer s d : single_form s d -> integer d.
Proof. intros (kw & w1 & w2 & pts & rest & H). tauto. Qed.

(** [search] with the range pattern, in terms of the text: the first offset
    that has the range form, and the integers there. *)
Lemma search_range_first t n d1 d2 :
  range_at t n d1 d2 ->
  exists n0 e1 e2,
    (n0 <= n)%nat /\ range_at t n0 e1 e2
    /\ (forall j f1 f2, range_at t j f1 f2 -> (n0 <= j)%nat)
    /\ (forall f1 f2, range_at t n0 f1 f2 -> f1 = e1 /\ f2 = e2)
    /\ search PRICE_RANGE_RE t
        = Some [("high"%string, e2); ("low"%string, e1)].
Proof.
  intros [Hn Hf]. apply run_range in Hf.
  destruct (search PRICE_RANGE_RE t) as [m|] eqn:E.
  - apply search_Some in E as (n0 & Hn0 & Hr & Hj).
    destruct (run_range_inv _ _ Hr) as (e1 & e2 & He & ->).
    exists n0, e1, e2. split_and!.
    + destruct (decide (n0 <= n)%nat) as [|Hgt]; [assumption|].
      rewrite Hj in Hf by lia. discriminate.
    + split; assumption.
    + intros j f1 f2 [_ Hjf]. apply run_range in Hjf.
      destruct (decide (n0 <= j)%nat) as [|Hgt]; [assumption|].
      rewrite Hj in Hjf by lia. discriminate.
    + intros f1 f2 [_ Hff]. apply run_range in Hff.
      rewrite Hr in Hff. inversion Hff. auto.
    + reflexivity.
  - rewrite search_None in E. rewrite (E n Hn) in Hf. discriminate.
Qed.

Lemma search_range_None t :
  search PRICE_RANGE_RE t = None <-> forall n d1 d2, ~ range_at t n d1 d2.
Proof.
  rewrite search_None. split.
  - intros H n d1 d2 [Hn Hf]. apply run_range in Hf.
    rewrite (H n Hn) in Hf. discriminate.
  - intros H j Hj. destruct (run PRICE_RANGE_RE (drop j t) []) as [m|] eqn:E;
      [|reflexivity].
    destruct (run_range_inv _ _ E) as (d1 & d2 & Hf & _).
    destruct (H j d1 d2). split; assumption.
Qed.

Lemma search_single_first t n d :
  single_at t n d ->
  exists n0 e,
    (n0 <= n)%nat /\ single_at t n0 e
    /\ (forall j f, single_at t j f -> (n0 <= j)%nat)
    /\ (forall f, single_at t n0 f -> f = e)
    /\ search PRICE_SINGLE_RE t = Some [("val"%string, e)].
Proof.
  intros [Hn Hf]. apply run_single in Hf.
  destruct (search PRICE_SINGLE_RE t) as [m|] eqn:E.
  - apply search_Some in E as (n0 & Hn0 & Hr & Hj).
    destruct (run_single_inv _ _ Hr) as (e & He & ->).
    exists n0, e. split_and!.
    + destruct (decide (n0 <= n)%nat) as [|Hgt]; [assumption|].
      rewrite Hj in Hf by lia. discriminate.
    + split; assumption.
    + intros j f [_ Hjf]. apply run_single in Hjf.
      destruct (decide (n0 <= j)%nat) as [|Hgt]; [assumption|].
      rewrite Hj in Hjf by lia. discriminate.
    + intros f [_ Hff]. apply run_single in Hff.
      rewrite Hr in Hff. inversion Hff. auto.
    + reflexivity.
  - rewrite search_None in E. rewrite (E n Hn) in Hf. discriminate.
Qed.

Lemma search_single_None t :
  search PRICE_SINGLE_RE t = None <-> forall n d, ~ single_at t n d.
Proof.
  rewrite search_None. split.
  - intros H n d [Hn Hf]. apply run_single in Hf.
    rewrite (H n Hn) in Hf. discriminate.
  - intros H j Hj. destruct (run PRICE_SINGLE_RE (drop j t) []) as [m|] eqn:E;
      [|reflexivity].
    destruct (run_single_inv _ _ E) as (d & Hf & _).
    destruct (H j d). split; assumption.
Qed.

(** The extractor on a text whose first range form holds [d1] and [d2]. *)
Lemma extract_range_eq html t d1 d2 :
  get_text html = Ok t ->
  search PRICE_RANGE_RE t = Some [("high"%string, d2); ("low"%string, d1)] ->
  extract_price_range_from_html html
  = (low ← py_int d1; high ← py_int d2; Ok (Some (low, high))).
Proof.
  intros Ht Hs. unfold extract_price_range_from_html.
  rewrite Ht. unfold mbind, result_bind. rewrite Hs. reflexivity.
Qed.

Lemma extract_single_eq html t d :
  get_text html = Ok t ->
  search PRICE_RANGE_RE t = None ->
  search PRICE_SINGLE_RE t = Some [("val"%string, d)] ->
  extract_price_range_from_html html = (v ← py_int d; Ok (Some (v, v))).
Proof.
  intros Ht Hr Hs. unfold extract_price_range_from_html.
  rewrite Ht. unfold mbind, result_bind. rewrite Hr, Hs. reflexivity.
Qed.

Lemma extract_range html t d1 d2 :
  get_text html = Ok t ->
  integer d1 -> integer d2 ->
  (length d1 <= INT_MAX_STR_DIGITS)%nat ->
  (length d2 <= INT_MAX_STR_DIGITS)%nat ->
  search PRICE_RANGE_RE t = Some [("high"%string, d2); ("low"%string, d1)] ->
  extract_price_range_from_html html = Ok (Some (int_of d1, int_of d2)).
Proof.
  intros Ht H1 H2 L1 L2 Hs. rewrite (extract_range_eq html t d1 d2 Ht Hs).
  rewrite (py_int_integer d1 H1 L1), (py_int_integer d2 H2 L2). reflexivity.
Qed.

Lemma extract_range_inv html t d1 d2 low high :
  get_text html = Ok t ->
  search PRICE_RANGE_RE t = Some [("high"%string, d2); ("low"%string, d1)] ->
  extract_price_range_from_html html = Ok (Some (low, high)) ->
  low = int_of d1 /\ high = int_of d2.
Proof.
  intros Ht Hs Hx. rewrite (extract_range_eq html t d1 d2 Ht Hs) in Hx.
  unfold mbind, result_bind in Hx.
  destruct (py_int d1) as [l|] eqn:E1; [|discriminate].
  destruct (py_int d2) as [h|] eqn:E2; [|discriminate].
  apply py_int_Ok in E1 as [-> _]. apply py_int_Ok in E2 as [-> _].
  inversion Hx. auto.
Qed.


Lemma extract_single_inv html t d low high :
  get_text html = Ok t ->
  search PRICE_RANGE_RE t = None ->
  search PRICE_SINGLE_RE t = Some [("val"%string, d)] ->
  extract_price_range_from_html html = Ok (Some (low, high)) ->
  low = int_of d /\ high = int_of d.
Proof.
  intros Ht Hr Hs Hx. rewrite (extract_single_eq html t d Ht Hr Hs) in Hx.
  unfold mbind, result_bind in Hx.
  destruct (py_int d) as [v|] eqn:E; [|discriminate].
  apply py_int_Ok in E as [-> _]. inversion Hx. auto.
Qed.



(** [int_of] reads base ten, most significant digit first. *)
Lemma digits_value_snoc d c v : forall acc a,
  digits_value acc d = Some a -> decimal c = Some v ->
  digits_value acc (d ++ [c]) = Some (10 * a + Z.of_N v)%Z.
Proof.
  induction d as [|x d IH]; intros acc a Ha Hc; simpl in *.
  - inversion Ha; subst. rewrite Hc. reflexivity.
  - destruct (decimal x); [|discriminate]. eauto.
Qed.

Lemma int_of_snoc d c v :
  forallb (in_class Digit) d = true -> decimal c = Some v ->
  int_of (d ++ [c]) = (10 * int_of d + Z.of_N v)%Z.
Proof.
  intros Hd Hc. unfold int_of.
  destruct (digits_value_Some d 0%Z Hd) as [a Ha].
  rewrite (digits_value_snoc d c v _ a Ha Hc), Ha. reflexivity.
Qed.

Lemma int_of_nonneg d : (0 <= int_of d)%Z.
Proof.
  unfold int_of. assert (G : forall acc a,
    (0 <= acc)%Z -> digits_value acc d = Some a -> (0 <= a)%Z).
  { induction d as [|x d IH]; intros acc a Hacc H; simpl in H.
    - inversion H; subst; assumption.
    - destruct (decimal x) as [v|]; [|discriminate].
      apply (IH (10 * acc + Z.of_N v)%Z a); [lia | exact H]. }
  destruct (digits_value 0 d) as [a|] eqn:E; simpl; [|lia].
  apply (G 0%Z a); [lia | exact E].
Qed.

(** An occurrence after a prefix is an occurrence at the prefix's length. *)
Lemma range_at_app pre s d1 d2 :
  range_form s d1 d2 -> range_at (pre ++ s) (length pre) d1 d2.
Proof.
  intros H. split; [rewrite length_app; lia|].
  rewrite drop_app_length. exact H.
Qed.

Lemma single_at_app pre s d :
  single_form s d -> single_at (pre ++ s) (length pre) d.
Proof.
  intros H. split; [rewrite length_app; lia|].
  rewrite drop_app_length. exact H.
Qed.

(** ** The extractor *)

(** Whatever the digit table and the flattener, a page whose text is
    "Price Range: 9-8 points" gives the pair (9, 8). *)
Lemma extract_high_first html :
  get_text html = Ok (lit "Price Range: 9-8 points") ->
  extract_price_range_from_html html = Ok (Some (9, 8)%Z).
Proof.
  intros Ht.
  assert (H9 : decimal 57 = Some 9) by (rewrite decimal_ascii; reflexivity).
  assert (H8 : decimal 56 = Some 8) by (rewrite decimal_ascii; reflexivity).
  assert (I9 : integer [57]).
  { split; [discriminate|]. simpl. rewrite H9. reflexivity. }
  assert (I8 : integer [56]).
  { split; [discriminate|]. simpl. rewrite H8. reflexivity. }
  assert (Hf : range_form (lit "Price Range: 9-8 points") [57] [56]).
  { exists (lit "Price Range:"), [32], [], [], [32], (lit "points"), [].
    split_and!; try assumption; try reflexivity;
      unfold ci_eq; repeat constructor. }
  assert (Hat : range_at (lit "Price Range: 9-8 points") 0 [57] [56]).
  { split; [simpl; lia | exact Hf]. }
  destruct (search_range_first _ _ _ _ Hat)
    as (n0 & e1 & e2 & Hle & Hat0 & _ & Huniq & Hs).
  assert (n0 = 0)%nat as -> by lia.
  destruct (Huniq _ _ Hat) as [<- <-].
  rewrite (extract_range html _ [57] [56] Ht I9 I8); try exact Hs;
    try (unfold INT_MAX_STR_DIGITS; simpl; lia).
  unfold int_of. simpl. rewrite H9, H8. reflexivity.
Qed.



(** C3, amended. A returned pair is ordered whenever it comes from the
    single form: if the text has no range form, [low = high]. A pair that
    comes from a range form is the two integers in the order the page has
    them, so it is ordered exactly when they are. *)
Theorem extract_pair_order html t low high :
  get_text html = Ok t ->
  extract_price_range_from_html html = Ok (Some (low, high)) ->
  ((forall n d1 d2, ~ range_at t n d1 d2) -> low = high /\ (low <= high)%Z)
  /\ (forall n d1 d2,
        range_at t n d1 d2 ->
        (forall j e1 e2, range_at t j e1 e2 -> (n <= j)%nat) ->
        low = int_of d1 /\ high = int_of d2).
Proof.
  intros Ht Hx. split.
  - intros Hno. apply search_range_None in Hno.
    unfold extract_price_range_from_html in Hx.
    rewrite Ht in Hx. unfold mbind, result_bind in Hx. rewrite Hno in Hx.
    destruct (search PRICE_SINGLE_RE t); [|discriminate].
    destruct (py_int _); [|discriminate].
    inversion Hx; subst. split; [reflexivity | lia].
  - intros n d1 d2 Hat Hmin.
    destruct (search_range_first t n d1 d2 Hat)
      as (n0 & e1 & e2 & Hle & Hat0 & _ & Huniq & Hs).
    assert (n0 = n) as -> by (specialize (Hmin _ _ _ Hat0); lia).
    destruct (Huniq _ _ Hat) as [-> ->].
    exact (extract_range_inv html t e1 e2 low high Ht Hs Hx).
Qed.

(** ** More on the extractor *)

Lemma digits_value_nonneg d : forall acc a,
  (0 <= acc)%Z -> digits_value acc d = Some a -> (0 <= a)%Z.
Proof.
  induction d as [|x d IH]; intros acc a Hacc H; simpl in H.
  - inversion H; subst; assumption.
  - destruct (decimal x) as [v|]; [|discriminate].
    apply (IH (10 * acc + Z.of_N v)%Z a); [lia | exact H].
Qed.

Lemma py_int_nonneg s v : py_int s = Ok v -> (0 <= v)%Z.
Proof.
  unfold py_int. destruct s as [|c s]; [discriminate|].
  destruct (_ <? _)%nat; [discriminate|].
  destruct (digits_value 0 (c :: s)) as [a|] eqn:E; [|discriminate].
  intros H. inversion H; subst. apply (digits_value_nonneg _ _ _ (Z.le_refl 0) E).
Qed.

(** What [search] returns, read back on the text. *)
Lemma search_range_inv t m :
  search PRICE_RANGE_RE t = Some m ->
  exists n d1 d2,
    m = [("high"%string, d2); ("low"%string, d1)]
    /\ range_at t n d1 d2
    /\ forall j e1 e2, range_at t j e1 e2 -> (n <= j)%nat.
Proof.
  intros H. apply search_Some in H as (n & Hn & Hr & Hj).
  destruct (run_range_inv _ _ Hr) as (d1 & d2 & Hf & ->).
  exists n, d1, d2. split_and!; [reflexivity | split; assumption |].
  intros j e1 e2 [_ Hjf]. apply run_range in Hjf.
  destruct (decide (n <= j)%nat) as [|Hgt]; [assumption|].
  rewrite Hj in Hjf by lia. discriminate.
Qed.

Lemma search_single_inv t m :
  search PRICE_SINGLE_RE t = Some m ->
  exists n d,
    m = [("val"%string, d)]
    /\ single_at t n d
    /\ forall j e, single_at t j e -> (n <= j)%nat.
Proof.
  intros H. apply search_Some in H as (n & Hn & Hr & Hj).
  destruct (run_single_inv _ _ Hr) as (d & Hf & ->).
  exists n, d. split_and!; [reflexivity | split; assumption |].
  intros j e [_ Hjf]. apply run_single in Hjf.
  destruct (decide (n <= j)%nat) as [|Hgt]; [assumption|].
  rewrite Hj in Hjf by lia. discriminate.
Qed.

(** X1. The extractor invents nothing: a pair it returns is the two
    integers of the first range form of the text, or, when the text has no
    range form, twice the integer of its first single form. *)
Theorem extract_pair_from_page html t low high :
  get_text html = Ok t ->
  extract_price_range_from_html html = Ok (Some (low, high)) ->
  (exists n d1 d2,
      range_at t n d1 d2
      /\ (forall j e1 e2, range_at t j e1 e2 -> (n <= j)%nat)
      /\ low = int_of d1 /\ high = int_of d2)
  \/ ((forall n d1 d2, ~ range_at t n d1 d2)
      /\ exists n d,
          single_at t n d
          /\ (forall j e, single_at t j e -> (n <= j)%nat)
          /\ low = int_of d /\ high = int_of d).
Proof.
  intros Ht Hx.
  destruct (search PRICE_RANGE_RE t) as [m|] eqn:EA.
  - left. apply search_range_inv in EA as (n & d1 & d2 & -> & Hat & Hmin).
    destruct (search_range_first t n d1 d2 Hat)
      as (n0 & e1 & e2 & Hle & Hat0 & _ & Huniq & Hs).
    assert (n0 = n) as -> by (specialize (Hmin _ _ _ Hat0); lia).
    destruct (Huniq _ _ Hat) as [-> ->].
    exists n, e1, e2. split_and!; try assumption;
      apply (extract_range_inv html t e1 e2 low high Ht Hs Hx).
  - right. split; [apply search_range_None; exact EA|].
    destruct (search PRICE_SINGLE_RE t) as [m|] eqn:EB.
    + apply search_single_inv in EB as (n & d & -> & Hat & Hmin).
      destruct (search_single_first t n d Hat)
        as (n0 & e & Hle & Hat0 & _ & Huniq & Hs).
      assert (n0 = n) as -> by (specialize (Hmin _ _ Hat0); lia).
      pose proof (Huniq _ Hat) as ->.
      exists n, e. split_and!; try assumption;
        apply (extract_single_inv html t e low high Ht EA Hs Hx).
    + unfold extract_price_range_from_html in Hx.
      rewrite Ht in Hx. unfold mbind, result_bind in Hx.
      rewrite EA, EB in Hx. discriminate.
Qed.

(** X2. Both numbers of a returned pair are non-negative: the patterns have
    no sign, and [int] of a run of digits is never below zero. *)
Theorem extract_pair_nonneg html low high :
  extract_price_range_from_html html = Ok (Some (low, high)) ->
  (0 <= low)%Z /\ (0 <= high)%Z.
Proof.
  unfold extract_price_range_from_html, mbind, result_bind.
  destruct (get_text html) as [t|e]; [|discriminate].
  destruct (search PRICE_RANGE_RE t) as [m|].
  - destruct (py_int (group m "low")) as [l|e] eqn:El; [|discriminate].
    destruct (py_int (group m "high")) as [h|e] eqn:Eh; [|discriminate].
    intros H. inversion H; subst.
    split; eapply py_int_nonneg; eassumption.
  - destruct (search PRICE_SINGLE_RE t) as [m|]; [|discriminate].
    destruct (py_int (group m "val")) as [v|e] eqn:Ev; [|discriminate].
    intros H. inversion H; subst.
    split; eapply py_int_nonneg; eassumption.
Qed.

(** X3. When the extractor raises. It raises what parsing and flattening
    the markup raised; and it raises [ValueError] when the match it takes
    (the first range form, else the first single form) holds an integer of
    more than 4300 digits, which [int] refuses. It raises in no other
    case. *)
Theorem extract_raises_iff html e :
  extract_price_range_from_html html = Raise e <->
  get_text html = Raise e
  \/ (e = ValueError
      /\ exists t,
          get_text html = Ok t
          /\ ((exists n d1 d2,
                  range_at t n d1 d2
                  /\ (forall j e1 e2, range_at t j e1 e2 -> (n <= j)%nat)
                  /\ ((INT_MAX_STR_DIGITS < length d1)%nat
                      \/ (INT_MAX_STR_DIGITS < length d2)%nat))
              \/ ((forall n d1 d2, ~ range_at t n d1 d2)
                  /\ exists n d,
                      single_at t n d
                      /\ (forall j e, single_at t j e -> (n <= j)%nat)
                      /\ (INT_MAX_STR_DIGITS < length d)%nat))).
Proof.
  destruct (get_text html) as [t|e0] eqn:Ht.
  - split.
    + intros Hx. right.
      destruct (search PRICE_RANGE_RE t) as [m|] eqn:EA.
      * apply search_range_inv in EA as (n & d1 & d2 & -> & Hat & Hmin).
        destruct (search_range_first t n d1 d2 Hat)
          as (n0 & e1 & e2 & Hle & Hat0 & _ & Huniq & Hs).
        assert (n0 = n) as -> by (specialize (Hmin _ _ _ Hat0); lia).
        destruct (Huniq _ _ Hat) as [-> ->].
        rewrite (extract_range_eq html t e1 e2 Ht Hs) in Hx.
        unfold mbind, result_bind in Hx.
        destruct Hat0 as [Hn Hf].
        destruct (range_form_integers _ _ _ Hf) as [H1 H2].
        destruct (le_lt_dec (length e1) INT_MAX_STR_DIGITS) as [L1|L1].
        -- rewrite (py_int_integer e1 H1 L1) in Hx.
           destruct (le_lt_dec (length e2) INT_MAX_STR_DIGITS) as [L2|L2].
           ++ rewrite (py_int_integer e2 H2 L2) in Hx. discriminate.
           ++ rewrite (py_int_long e2 (proj1 H2) L2) in Hx.
              inversion Hx. split; [reflexivity|].
              exists t. split; [reflexivity|]. left.
              exists n, e1, e2. split_and!; [split| |]; auto.
        -- rewrite (py_int_long e1 (proj1 H1) L1) in Hx.
           inversion Hx. split; [reflexivity|].
           exists t. split; [reflexivity|]. left.
           exists n, e1, e2. split_and!; [split| |]; auto.
      * destruct (search PRICE_SINGLE_RE t) as [m|] eqn:EB.
        -- apply search_single_inv in EB as (n & d & -> & Hat & Hmin).
           destruct (search_single_first t n d Hat)
             as (n0 & e1 & Hle & Hat0 & _ & Huniq & Hs).
           assert (n0 = n) as -> by (specialize (Hmin _ _ Hat0); lia).
           pose proof (Huniq _ Hat) as ->.
           rewrite (extract_single_eq html t e1 Ht EA Hs) in Hx.
           unfold mbind, result_bind in Hx.
           destruct Hat0 as [Hn Hf].
           pose proof (single_form_integer _ _ Hf) as H1.
           destruct (le_lt_dec (length e1) INT_MAX_STR_DIGITS) as [L1|L1].
           ++ rewrite (py_int_integer e1 H1 L1) in Hx. discriminate.
           ++ rewrite (py_int_long e1 (proj1 H1) L1) in Hx.
              inversion Hx. split; [reflexivity|].
              exists t. split; [reflexivity|]. right.
              split; [apply search_range_None; exact EA|].
              exists n, e1. split_and!; [split| |]; auto.
        -- unfold extract_price_range_from_html in Hx.
           rewrite Ht in Hx. unfold mbind, result_bind in Hx.
           rewrite EA, EB in Hx. discriminate.
    + intros [H|(-> & t' & Ht' & H)]; [discriminate|].
      inversion Ht'; subst t'.
      destruct H as [(n & d1 & d2 & Hat & Hmin & Hlen)
                    |(Hno & n & d & Hat & Hmin & Hlen)].
      * destruct (search_range_first t n d1 d2 Hat)
          as (n0 & e1 & e2 & Hle & Hat0 & _ & Huniq & Hs).
        assert (n0 = n) as -> by (specialize (Hmin _ _ _ Hat0); lia).
        destruct (Huniq _ _ Hat) as [-> ->].
        rewrite (extract_range_eq html t e1 e2 Ht Hs).
        unfold mbind, result_bind.
        destruct Hat0 as [Hn Hf].
        destruct (range_form_integers _ _ _ Hf) as [H1 H2].
        destruct (le_lt_dec (length e1) INT_MAX_STR_DIGITS) as [L1|L1].
        -- rewrite (py_int_integer e1 H1 L1).
           destruct Hlen as [Hlen|Hlen]; [lia|].
           rewrite (py_int_long e2 (proj1 H2) Hlen). reflexivity.
        -- rewrite (py_int_long e1 (proj1 H1) L1). reflexivity.
      * apply search_range_None in Hno.
        destruct (search_single_first t n d Hat)
          as (n0 & e1 & Hle & Hat0 & _ & Huniq & Hs).
        assert (n0 = n) as -> by (specialize (Hmin _ _ Hat0); lia).
        pose proof (Huniq _ Hat) as ->.
        rewrite (extract_single_eq html t e1 Ht Hno Hs).
        unfold mbind, result_bind.
        destruct Hat0 as [Hn Hf].
        pose proof (single_form_integer _ _ Hf) as H1.
        rewrite (py_int_long e1 (proj1 H1) Hlen). reflexivity.
  - unfold extract_price_range_from_html. rewrite Ht.
    unfold mbind, result_bind. split.
    + intros H. left. inversion H. reflexivity.
    + intros [H|(_ & t & Ht' & _)]; [|discriminate].
      inversion H. reflexivity.
Qed.

Lemma integer_has_digit d : integer d -> exists c, In c d /\ in_class Digit c = true.
Proof.
  intros [Hn Hd]. destruct d as [|c d]; [congruence|].
  simpl in Hd. apply andb_prop in Hd as [Hc _].
  exists c. split; [left; reflexivity | exact Hc].
Qed.

Lemma range_form_has_digit s d1 d2 :
  range_form s d1 d2 -> exists c, In c s /\ in_class Digit c = true.
Proof.
  intros (kw & w1 & w2 & w3 & w4 & pts & rest & -> & _ & _ & Hd & _).
  destruct (integer_has_digit d1 Hd) as (c & Hin & Hc).
  exists c. split; [|exact Hc]. rewrite !in_app_iff. tauto.
Qed.

Lemma single_form_has_digit s d :
  single_form s d -> exists c, In c s /\ in_class Digit c = true.
Proof.
  intros (kw & w1 & w2 & pts & rest & -> & _ & _ & Hd & _).
  destruct (integer_has_digit d Hd) as (c & Hin & Hc).
  exists c. split; [|exact Hc]. rewrite !in_app_iff. tauto.
Qed.

Lemma no_digit_drop t n c :
  forallb (fun c => negb (in_class Digit c)) t = true ->
  In c (drop n t) -> in_class Digit c = true -> False.
Proof.
  intros H Hin Hc. rewrite forallb_forall in H.
  assert (Hin' : In c t).
  { rewrite <- (take_drop n t). apply in_app_iff. right. exact Hin. }
  specialize (H c Hin'). rewrite Hc in H. discriminate.
Qed.

(** X4. A text without a decimal digit holds no price: the extractor
    returns [None]. The empty text is one. *)
Theorem extract_no_digit_none html t :
  get_text html = Ok t ->
  forallb (fun c => negb (in_class Digit c)) t = true ->
  extract_price_range_from_html html = Ok None.
Proof.
  intros Ht Hno. unfold extract_price_range_from_html.
  rewrite Ht. unfold mbind, result_bind.
  assert (EA : search PRICE_RANGE_RE t = None).
  { apply search_range_None. intros n d1 d2 [_ Hf].
    destruct (range_form_has_digit _ _ _ Hf) as (c & Hin & Hc).
    exact (no_digit_drop t n c Hno Hin Hc). }
  assert (EB : search PRICE_SINGLE_RE t = None).
  { apply search_single_None. intros n d [_ Hf].
    destruct (single_form_has_digit _ _ Hf) as (c & Hin & Hc).
    exact (no_digit_drop t n c Hno Hin Hc). }
  rewrite EA, EB. reflexivity.
Qed.

End Matcher.

(** ** The frame *)

Lemma cols_distinct :
  low_high_col <> low_col /\ low_high_col <> high_col /\ low_col <> high_col.
Proof.
  split_and!; intros H; apply (f_equal length) in H; vm_compute in H;
    discriminate.
Qed.

Lemma len_set_column df col v : len (set_column df col v) = len df.
Proof. unfold len; simpl. apply length_fmap. Qed.

Lemma len_set_at df i col v : len (set_at df i col v) = len df.
Proof. unfold len; simpl. apply length_alter. Qed.

Lemma cell_at_set_column df col v k c :
  cell_at (set_column df col v) k c
  = if decide (col = c)
    then (if decide (k < len df)%nat then Some v else None)
    else cell_at df k c.
Proof.
  unfold cell_at, len; simpl. rewrite list_lookup_fmap.
  destruct (rows df !! k) as [r|] eqn:E; simpl.
  - rewrite lookup_insert. apply lookup_lt_Some in E.
    destruct (decide (col = c)); [|done]. rewrite decide_True; done.
  - apply lookup_ge_None in E.
    destruct (decide (col = c)); [|done]. rewrite decide_False; [done|lia].
Qed.

Lemma cell_at_set_at df i col v k c :
  cell_at (set_at df i col v) k c
  = if decide (i = k /\ col = c /\ (k < len df)%nat) then Some v
    else cell_at df k c.
Proof.
  unfold cell_at, len; simpl.
  destruct (decide (i = k)) as [->|Hne].
  - rewrite list_lookup_alter_eq.
    destruct (rows df !! k) as [r|] eqn:E; simpl.
    + apply lookup_lt_Some in E. rewrite lookup_insert.
      destruct (decide (col = c)).
      * rewrite decide_True; done.
      * rewrite decide_False; [done | tauto].
    + apply lookup_ge_None in E. rewrite decide_False; [done | lia].
  - rewrite list_lookup_alter_ne by done.
    rewrite decide_False; [done | tauto].
Qed.

Lemma len_write_price df i low high : len (write_price df i low high) = len df.
Proof. unfold write_price. rewrite !len_set_at. reflexivity. Qed.

Lemma columns_write_price df i low high :
  columns (write_price df i low high) = columns df.
Proof. reflexivity. Qed.


Lemma cell_at_write_price_other df i low high k c :
  k <> i \/ c ∉ output_cols \/ (len df <= i)%nat ->
  cell_at (write_price df i low high) k c = cell_at df k c.
Proof.
  intros H. unfold write_price, output_cols in *.
  rewrite !cell_at_set_at, !len_set_at.
  repeat case_decide; try done; exfalso;
    destruct H as [H|[H|H]]; set_solver by lia.
Qed.

Lemma len_init_columns df : len (init_columns df) = len df.
Proof. unfold init_columns. rewrite !len_set_column. reflexivity. Qed.


Lemma cell_at_init_frame df k c :
  c ∉ output_cols -> cell_at (init_columns df) k c = cell_at df k c.
Proof.
  intros H. unfold init_columns, output_cols in *.
  rewrite !cell_at_set_column.
  repeat case_decide; try done; exfalso; set_solver.
Qed.

Lemma columns_init_columns df :
  columns (init_columns df)
  = columns df ++ filter (fun c => c ∉ columns df) output_cols.
Proof.
  destruct cols_distinct as (H1 & H2 & H3).
  unfold init_columns, set_column, output_cols; simpl.
  rewrite !filter_cons, filter_nil.
  repeat case_bool_decide; repeat case_decide; rewrite <- ?app_assoc;
    simpl; rewrite ?app_nil_r; try done; exfalso; set_solver.
Qed.

(** ** One turn of the loop *)

(** A string is blank exactly when all its characters are whitespace. *)
Lemma lstrip_nil s : lstrip s = [] <-> forallb is_space s = true.
Proof.
  induction s as [|c s IH]; simpl; [tauto|].
  destruct (is_space c); simpl; [exact IH | split; discriminate].
Qed.

Lemma lstrip_head s c t : lstrip s = c :: t -> is_space c = false.
Proof.
  induction s as [|x s IH]; simpl; [discriminate|].
  destruct (is_space x) eqn:E; [exact IH|].
  intros H. inversion H; subst. exact E.
Qed.

Lemma strip_nil s : strip s = [] <-> forallb is_space s = true.
Proof.
  unfold strip. split.
  - intros H. apply (f_equal (@rev N)) in H. rewrite rev_involutive in H.
    simpl in H. apply lstrip_nil in H.
    destruct (lstrip s) as [|c t] eqn:E; [apply lstrip_nil; exact E|].
    apply lstrip_head in E. rewrite forallb_forall in H.
    rewrite (H c) in E; [discriminate|]. apply in_rev.
    rewrite rev_involutive. left. reflexivity.
  - intros H. apply lstrip_nil in H. rewrite H. reflexivity.
Qed.

Lemma is_blank_iff url :
  is_blank url = true
  <-> isna url = true \/ forallb is_space (py_str url) = true.
Proof.
  unfold is_blank. rewrite orb_true_iff, bool_decide_eq_true, strip_nil.
  reflexivity.
Qed.

Lemma fetch_html_snd w url t :
  (fetch_html w url t).2
  = (r ← (requests_get w url USER_AGENT t).2;
     _ ← raise_for_status r; Ok (body r)).
Proof. unfold fetch_html. destruct (requests_get _ _ _ _); reflexivity. Qed.

Lemma fetch_html_fst w url t :
  (fetch_html w url t).1 = (requests_get w url USER_AGENT t).1.
Proof. unfold fetch_html. destruct (requests_get _ _ _ _); reflexivity. Qed.


Lemma loop_body_blank args st i url :
  is_blank url = true -> loop_body args st (i, url) = (st, Ok tt).
Proof. intros H. unfold loop_body. rewrite H. reflexivity. Qed.

Lemma loop_body_fetch args st i url :
  is_blank url = false ->
  loop_body args st (i, url)
  = let f := fetch_html (st_world st) (strip (py_str url)) (timeout args) in
    ({| st_df := match attempt (st_df st) i f.2 with
                 | Ok df => df
                 | Raise _ => st_df st
                 end;
        st_world := f.1;
        st_trace := st_trace st ++ row_events args (i, url) |},
     time_sleep (py_max 0 (delay args))).
Proof.
  intros H. unfold loop_body, row_events. simpl. rewrite H.
  destruct (fetch_html _ _ _). reflexivity.
Qed.

Lemma attempt_cases df i fetched df' :
  attempt df i fetched = Ok df' ->
  df' = df \/ exists low high, df' = write_price df i low high.
Proof.
  unfold attempt, mbind, result_bind.
  destruct fetched as [html|e]; [|discriminate].
  destruct (extract_price_range_from_html html) as [[[low high]|]|e];
    intros H; inversion H; eauto.
Qed.

Lemma loop_body_df args st it :
  st_df (loop_body args st it).1 = st_df st
  \/ exists low high,
       st_df (loop_body args st it).1 = write_price (st_df st) it.1 low high.
Proof.
  destruct it as [i url]. destruct (is_blank url) eqn:E.
  - rewrite loop_body_blank by exact E. auto.
  - rewrite loop_body_fetch by exact E. simpl.
    destruct (attempt _ _ _) as [df'|e] eqn:A; [|auto].
    apply attempt_cases in A. exact A.
Qed.

Lemma loop_body_trace args st it :
  st_trace (loop_body args st it).1 = st_trace st ++ row_events args it.
Proof.
  destruct it as [i url]. destruct (is_blank url) eqn:E.
  - rewrite loop_body_blank by exact E. unfold row_events. simpl.
    rewrite E, app_nil_r. reflexivity.
  - rewrite loop_body_fetch by exact E. reflexivity.
Qed.

(** A turn raises only what [time.sleep] raises, and only on a row whose
    URL is not blank. *)
Lemma loop_body_result args st it :
  (loop_body args st it).2
  = if is_blank it.2 then Ok tt else time_sleep (py_max 0 (delay args)).
Proof.
  destruct it as [i url]. change ((i, url).2) with url.
  destruct (is_blank url) eqn:E.
  - rewrite loop_body_blank by exact E. reflexivity.
  - rewrite loop_body_fetch by exact E. reflexivity.
Qed.

(** ** The whole loop *)

Lemma loop_from_cons args st it its :
  loop_from args st (it :: its)
  = match (loop_body args st it).2 with
    | Ok _ => loop_from args (loop_body args st it).1 its
    | Raise e => ((loop_body args st it).1, Raise e)
    end.
Proof. simpl. destruct (loop_body args st it) as [st' [[]|e]]; reflexivity. Qed.





(** However the loop ends, its trace is that of the rows it got through. *)
Lemma loop_from_trace args its : forall st,
  exists n,
    (n <= length its)%nat
    /\ st_trace (loop_from args st its).1
       = st_trace st ++ flat_map (row_events args) (take n its)
    /\ ((loop_from args st its).2 = Ok tt -> n = length its).
Proof.
  induction its as [|it its IH]; intros st.
  - exists 0%nat. simpl. rewrite app_nil_r. auto.
  - rewrite loop_from_cons.
    destruct ((loop_body args st it).2) as [[]|e].
    + destruct (IH (loop_body args st it).1) as (n & Hn & Ht & Hok).
      exists (S n). split_and!.
      * simpl. lia.
      * rewrite Ht, loop_body_trace, <- app_assoc. reflexivity.
      * intros H. rewrite (Hok H). reflexivity.
    + exists 1%nat. split_and!.
      * simpl. lia.
      * cbn [fst]. rewrite loop_body_trace. cbn [take flat_map].
        rewrite take_0. cbn [flat_map]. rewrite app_nil_r. reflexivity.
      * discriminate.
Qed.

Lemma loop_from_len args its : forall st,
  len (st_df (loop_from args st its).1) = len (st_df st).
Proof.
  induction its as [|it its IH]; intros st; [reflexivity|].
  rewrite loop_from_cons.
  destruct ((loop_body args st it).2) as [[]|e]; [rewrite IH|simpl];
    destruct (loop_body_df args st it) as [->|(l & h & ->)];
    try reflexivity; apply len_write_price.
Qed.

Lemma loop_from_columns args its : forall st,
  columns (st_df (loop_from args st its).1) = columns (st_df st).
Proof.
  induction its as [|it its IH]; intros st; [reflexivity|].
  rewrite loop_from_cons.
  destruct ((loop_body args st it).2) as [[]|e]; [rewrite IH|simpl];
    destruct (loop_body_df args st it) as [->|(l & h & ->)]; reflexivity.
Qed.

Lemma loop_body_cells args st it k c :
  c ∉ output_cols \/ it.1 <> k \/ is_blank it.2 = true ->
  cell_at (st_df (loop_body args st it).1) k c = cell_at (st_df st) k c.
Proof.
  intros H. destruct (is_blank it.2) eqn:E.
  - destruct it as [i url]. rewrite loop_body_blank by exact E. reflexivity.
  - destruct (loop_body_df args st it) as [->|(l & h & ->)]; [reflexivity|].
    apply cell_at_write_price_other.
    destruct H as [H|[H|H]]; [auto | left; auto | discriminate].
Qed.

(** The loop writes nothing outside the three output columns, and nothing
    in a row other than through that row's own turn. *)
Lemma loop_from_cells args its k c : forall st,
  c ∉ output_cols
  \/ (forall it, it ∈ its -> it.1 <> k \/ is_blank it.2 = true) ->
  cell_at (st_df (loop_from args st its).1) k c = cell_at (st_df st) k c.
Proof.
  induction its as [|it its IH]; intros st H; [reflexivity|].
  assert (Hit : c ∉ output_cols \/ it.1 <> k \/ is_blank it.2 = true).
  { destruct H as [H|H]; [auto|]. right. apply H. left. }
  assert (Hits : c ∉ output_cols
                 \/ (forall it', it' ∈ its ->
                       it'.1 <> k \/ is_blank it'.2 = true)).
  { destruct H as [H|H]; [auto|]. right. intros it' Hin. apply H.
    right. exact Hin. }
  rewrite loop_from_cons.
  destruct ((loop_body args st it).2) as [[]|e]; [rewrite (IH _ Hits)|simpl];
    apply loop_body_cells; exact Hit.
Qed.














(** ** The run *)

Lemma main_returns args w df :
  read_csv w (input args) = Ok df ->
  url_col args ∈ columns df ->
  (loop args (init_columns df) w (loop_items args df)).2 = Ok tt ->
  main args w
  = let st := (loop args (init_columns df) w (loop_items args df)).1 in
    {| exit := Returned;
       world := st_world st;
       trace := st_trace st
                  ++ [EvToCsv (output args) (st_df st);
                      EvPrint (lit "Wrote: " ++ output args)] |}.
Proof.
  intros Hr Hc Hok. unfold main. rewrite Hr.
  rewrite (bool_decide_eq_true_2 _ Hc). simpl.
  fold (loop_items args df).
  destruct (loop args (init_columns df) w (loop_items args df))
    as [st [[]|e]]; [reflexivity | discriminate].
Qed.

Lemma main_raises args w df e :
  read_csv w (input args) = Ok df ->
  url_col args ∈ columns df ->
  (loop args (init_columns df) w (loop_items args df)).2 = Raise e ->
  main args w
  = let st := (loop args (init_columns df) w (loop_items args df)).1 in
    {| exit := Uncaught e; world := st_world st; trace := st_trace st |}.
Proof.
  intros Hr Hc Hok. unfold main. rewrite Hr.
  rewrite (bool_decide_eq_true_2 _ Hc). simpl.
  fold (loop_items args df).
  destruct (loop args (init_columns df) w (loop_items args df))
    as [st [[]|e']]; [discriminate|]. simpl in *. congruence.
Qed.

Lemma loop_trace args df w its :
  exists n,
    (n <= length its)%nat
    /\ st_trace (loop args df w its).1
       = flat_map (row_events args) (take n its)
    /\ ((loop args df w its).2 = Ok tt -> n = length its).
Proof. unfold loop. apply loop_from_trace. Qed.

Lemma row_events_write_nothing args its :
  omap (fun e => match e with
                 | EvToCsv path df => Some (path, df)
                 | _ => None
                 end) (flat_map (row_events args) its) = [].
Proof.
  induction its as [|it its IH]; simpl; [reflexivity|].
  rewrite omap_app, IH, app_nil_r. unfold row_events.
  destruct (is_blank it.2); reflexivity.
Qed.

(** What a run writes: the frame of the loop when the loop ends without an
    exception, nothing otherwise. *)
Lemma written_main args w df :
  read_csv w (input args) = Ok df ->
  url_col args ∈ columns df ->
  written (main args w)
  = match (loop args (init_columns df) w (loop_items args df)).2 with
    | Ok _ => [(output args,
                st_df (loop args (init_columns df) w (loop_items args df)).1)]
    | Raise _ => []
    end.
Proof.
  intros Hr Hc.
  destruct (loop_trace args (init_columns df) w (loop_items args df))
    as (n & _ & Ht & _).
  destruct ((loop args (init_columns df) w (loop_items args df)).2)
    as [[]|e] eqn:E.
  - rewrite (main_returns args w df Hr Hc E).
    unfold written. simpl. rewrite omap_app, Ht.
    rewrite row_events_write_nothing. reflexivity.
  - rewrite (main_raises args w df e Hr Hc E).
    unfold written. simpl. rewrite Ht.
    apply row_events_write_nothing.
Qed.

Lemma written_main_inv args w df path final :
  read_csv w (input args) = Ok df ->
  url_col args ∈ columns df ->
  (path, final) ∈ written (main args w) ->
  path = output args
  /\ (loop args (init_columns df) w (loop_items args df)).2 = Ok tt
  /\ final = st_df (loop args (init_columns df) w (loop_items args df)).1.
Proof.
  intros Hr Hc. rewrite (written_main args w df Hr Hc).
  destruct ((loop args (init_columns df) w (loop_items args df)).2)
    as [[]|e].
  - intros H. apply list_elem_of_singleton in H. inversion H. auto.
  - intros H. apply elem_of_nil in H. destruct H.
Qed.







(** C6. When the URL column is not among the columns of the frame, the run
    ends in [SystemExit] with the message that lists the columns, the exit
    status is not zero, nothing was requested or written, and the world is
    as it was. *)
Theorem missing_url_column_exits args w df :
  read_csv w (input args) = Ok df ->
  url_col args ∉ columns df ->
  exit (main args w)
  = SystemExit (lit "URL column '" ++ url_col args
                  ++ lit "' not found. Available columns: "
                  ++ list_repr (columns df))
  /\ exit_code (exit (main args w)) <> 0%Z
  /\ trace (main args w) = []
  /\ written (main args w) = []
  /\ world (main args w) = w.
Proof.
  intros Hr Hc. unfold written, main. rewrite Hr.
  rewrite (bool_decide_eq_false_2 _ Hc). simpl. split_and!; done.
Qed.






(** With answers that depend on the request alone, the frame and the trace
    the loop leaves, and the way it ends, do not depend on the world it
    starts in. *)
Lemma loop_from_deterministic args its :
  (forall w w' url ua t,
      (requests_get w url ua t).2 = (requests_get w' url ua t).2) ->
  forall st1 st2,
    st_df st1 = st_df st2 -> st_trace st1 = st_trace st2 ->
    st_df (loop_from args st1 its).1 = st_df (loop_from args st2 its).1
    /\ st_trace (loop_from args st1 its).1
       = st_trace (loop_from args st2 its).1
    /\ (loop_from args st1 its).2 = (loop_from args st2 its).2.
Proof.
  intros Hst. induction its as [|[i url] its IH]; intros st1 st2 Hd Ht;
    [simpl; auto|].
  assert (Hdf : st_df (loop_body args st1 (i, url)).1
                = st_df (loop_body args st2 (i, url)).1).
  { destruct (is_blank url) eqn:E.
    - rewrite !loop_body_blank by exact E. exact Hd.
    - rewrite !loop_body_fetch by exact E. simpl.
      rewrite !fetch_html_snd, Hd.
      rewrite (Hst (st_world st1) (st_world st2)). reflexivity. }
  assert (Htr : st_trace (loop_body args st1 (i, url)).1
                = st_trace (loop_body args st2 (i, url)).1).
  { rewrite !loop_body_trace, Ht. reflexivity. }
  rewrite !loop_from_cons, !loop_body_result.
  destruct (if is_blank (i, url).2 then Ok tt
            else time_sleep (py_max 0 (delay args))) as [[]|e].
  - apply IH; assumption.
  - simpl. auto.
Qed.

(** C9. Two runs on the same arguments whose [read_csv] gives the same
    frame, in a world whose answers depend on the request alone, end the
    same way, with the same trace, and so write the same frame to the same
    path. *)
Theorem main_deterministic args w1 w2 :
  read_csv w1 (input args) = read_csv w2 (input args) ->
  (forall w w' url ua t,
      (requests_get w url ua t).2 = (requests_get w' url ua t).2) ->
  exit (main args w1) = exit (main args w2)
  /\ trace (main args w1) = trace (main args w2)
  /\ written (main args w1) = written (main args w2).
Proof.
  intros Hr Hst.
  assert (Ht : exit (main args w1) = exit (main args w2)
               /\ trace (main args w1) = trace (main args w2)).
  { unfold main. rewrite Hr.
    destruct (read_csv w2 (input args)) as [df|e]; [|auto].
    destruct (negb _); [auto|]. unfold loop.
    destruct (loop_from_deterministic args
                (items (init_columns df) (url_col args)) Hst
                {| st_df := init_columns df; st_world := w1; st_trace := [] |}
                {| st_df := init_columns df; st_world := w2; st_trace := [] |}
                eq_refl eq_refl) as (Hd & Htr & Hres).
    destruct (loop_from args
                {| st_df := init_columns df; st_world := w1; st_trace := [] |}
                (items (init_columns df) (url_col args))) as [s1 r1].
    destruct (loop_from args
                {| st_df := init_columns df; st_world := w2; st_trace := [] |}
                (items (init_columns df) (url_col args))) as [s2 r2].
    simpl in Hd, Htr, Hres. subst r2.
    destruct r1 as [[]|e]; simpl; rewrite ?Hd, ?Htr; auto. }
  destruct Ht as [He Ht]. unfold written. rewrite Ht. auto.
Qed.


(** ** More on the pipeline *)

(** X5. [fetch_html] makes the one request and leaves the world as the
    request left it. It returns the body, unchanged, exactly when the
    request answers with a status outside 400..599 (so also on a 1xx or 3xx
    answer); it raises exactly what the request raised, or [HTTPError] on a
    4xx or 5xx status. *)
Theorem fetch_html_outcome w url t :
  (fetch_html w url t).1 = (requests_get w url USER_AGENT t).1
  /\ (forall html,
        (fetch_html w url t).2 = Ok html <->
        exists resp,
          (requests_get w url USER_AGENT t).2 = Ok resp
          /\ ~ (400 <= status_code resp < 600)%Z
          /\ body resp = html)
  /\ (forall e,
        (fetch_html w url t).2 = Raise e <->
        (requests_get w url USER_AGENT t).2 = Raise e
        \/ exists resp,
            (requests_get w url USER_AGENT t).2 = Ok resp
            /\ (400 <= status_code resp < 600)%Z
            /\ e = HTTPError (status_code resp)).
Proof.
  rewrite fetch_html_fst, fetch_html_snd. split; [reflexivity|].
  destruct ((requests_get w url USER_AGENT t).2) as [resp|e0];
    unfold mbind, result_bind, raise_for_status.
  - destruct ((400 <=? status_code resp) && (status_code resp <? 600))%Z
      eqn:E.
    + apply andb_prop in E as [E1 E2].
      apply Z.leb_le in E1. apply Z.ltb_lt in E2. split.
      * intros html. split; [discriminate|].
        intros (r & Hr & Hs & _). inversion Hr; subst. lia.
      * intros e. split.
        -- intros H. inversion H. right. exists resp. auto.
        -- intros [H|(r & Hr & _ & ->)]; [discriminate|].
           inversion Hr; reflexivity.
    + apply andb_false_iff in E. rewrite Z.leb_nle, Z.ltb_nlt in E. split.
      * intros html. split.
        -- intros H. inversion H. exists resp. split_and!; [reflexivity|lia|reflexivity].
        -- intros (r & Hr & _ & <-). inversion Hr; reflexivity.
      * intros e. split; [discriminate|].
        intros [H|(r & Hr & Hs & _)]; [discriminate|].
        inversion Hr; subst. lia.
  - split.
    + intros html. split; [discriminate|]. intros (r & Hr & _). discriminate.
    + intros e. split.
      * intros H. left. inversion H; reflexivity.
      * intros [H|(r & Hr & _)]; [|discriminate].
        inversion H; reflexivity.
Qed.










Lemma DataFrame_eq a b : columns a = columns b -> rows a = rows b -> a = b.
Proof. destruct a, b; simpl; intros -> ->; reflexivity. Qed.

Lemma rows_init_columns_agree df df' :
  len df' = len df ->
  (forall k c, c ∉ output_cols -> cell_at df' k c = cell_at df k c) ->
  rows (init_columns df') = rows (init_columns df).
Proof.
  intros Hlen Hcells. unfold init_columns, set_column. simpl.
  rewrite <- !list_fmap_compose.
  apply list_eq. intros k. rewrite !list_lookup_fmap.
  specialize (fun c H => Hcells k c H). unfold cell_at, len in *.
  destruct (rows df' !! k) as [r'|] eqn:E', (rows df !! k) as [r|] eqn:E;
    simpl in *.
  - f_equal. apply map_eq. intros c. rewrite !lookup_insert.
    repeat case_decide; try done. apply Hcells.
    unfold output_cols. set_solver.
  - apply lookup_lt_Some in E'. apply lookup_ge_None in E. lia.
  - apply lookup_lt_Some in E. apply lookup_ge_None in E'. lia.
  - reflexivity.
Qed.

Lemma outputs_in_init_columns df c :
  c ∈ output_cols -> c ∈ columns (init_columns df).
Proof.
  intros H. rewrite columns_init_columns. apply elem_of_app.
  destruct (decide (c ∈ columns df)) as [Hin|Hout]; [left; exact Hin|].
  right. apply list_elem_of_filter. split; assumption.
Qed.

Lemma columns_init_columns_id df :
  (forall c, c ∈ output_cols -> c ∈ columns df) ->
  columns (init_columns df) = columns df.
Proof.
  intros H. rewrite columns_init_columns.
  assert (E : filter (fun c => c ∉ columns df) output_cols = []).
  { apply elem_of_nil_inv. intros c Hc.
    apply list_elem_of_filter in Hc as [Hout Hin]. exact (Hout (H c Hin)). }
  rewrite E, app_nil_r. reflexivity.
Qed.

(** X9. Running again on what a run wrote gives the same file. Let a first
    run write [final]; let a second run load a frame with the columns and
    the row count of [final] that agrees with it outside the three output
    columns (whatever it holds inside them), in a world whose answers depend
    on the request alone. The second run writes [final] again. *)
Theorem rerun_writes_same_frame args w1 w2 df df2 final :
  read_csv w1 (input args) = Ok df ->
  url_col args ∈ columns df ->
  written (main args w1) = [(output args, final)] ->
  read_csv w2 (input args) = Ok df2 ->
  columns df2 = columns final ->
  len df2 = len final ->
  (forall k c, c ∉ output_cols -> cell_at df2 k c = cell_at final k c) ->
  (forall w w' url ua t,
      (requests_get w url ua t).2 = (requests_get w' url ua t).2) ->
  written (main args w2) = [(output args, final)].
Proof.
  intros Hr1 Hc Hw1 Hr2 Hcols Hlen Hcells Hst.
  assert (Hin : (output args, final) ∈ written (main args w1)).
  { rewrite Hw1. apply list_elem_of_singleton. reflexivity. }
  destruct (written_main_inv args w1 df _ _ Hr1 Hc Hin) as (_ & Hok & Hf).
  assert (Hcf : columns final = columns (init_columns df)).
  { rewrite Hf. unfold loop. apply loop_from_columns. }
  assert (Hlf : len final = len df).
  { rewrite Hf. unfold loop. rewrite loop_from_len. apply len_init_columns. }
  assert (Hinit : init_columns df2 = init_columns df).
  { apply DataFrame_eq.
    - rewrite columns_init_columns_id; [congruence|].
      intros c Hc'. rewrite Hcols, Hcf.
      apply outputs_in_init_columns. exact Hc'.
    - apply rows_init_columns_agree; [congruence|].
      intros k c Hout. rewrite (Hcells k c Hout), Hf.
      unfold loop. rewrite loop_from_cells by auto. simpl.
      apply cell_at_init_frame. exact Hout. }
  assert (Hc2 : url_col args ∈ columns df2).
  { rewrite Hcols, Hcf, columns_init_columns. apply elem_of_app.
    left. exact Hc. }
  rewrite (written_main args w2 df2 Hr2 Hc2).
  unfold loop_items. rewrite Hinit. fold (loop_items args df).
  unfold loop in *.
  destruct (loop_from_deterministic args (loop_items args df) Hst
              {| st_df := init_columns df; st_world := w2; st_trace := [] |}
              {| st_df := init_columns df; st_world := w1; st_trace := [] |}
              eq_refl eq_refl) as (Hd & _ & Hres).
  rewrite Hres, Hok, Hd, Hf. reflexivity.
Qed.

Lemma uint_text_head u :
  u <> Decimal.Nil ->
  exists c rest, uint_text u = c :: rest /\ is_space c = false.
Proof.
  destruct u; intros H; try congruence; simpl; eauto.
Qed.

(** The decimal string of an integer is never blank. *)
Lemma str_int_not_blank z : strip (str_int z) <> [].
Proof.
  rewrite strip_nil. unfold str_int.
  destruct z as [|p|p]; simpl.
  - discriminate.
  - destruct (uint_text_head (Pos.to_uint p)
                (DecimalPos.Unsigned.to_uint_nonnil p))
      as (c & rest & -> & Hc).
    simpl. rewrite Hc. discriminate.
  - discriminate.
Qed.

(** X10. Which cells count as no URL. With [str] of a float that is not
    NaN never blank, a cell is skipped exactly when it is missing ([pd.NA]
    or a float NaN) or is a string all of whose characters are whitespace,
    the empty string among them. An integer, a boolean, a float that is not
    NaN and a string with any other character are URLs to request. *)
Theorem skipped_url_cells :
  (forall f, PrimFloat.is_nan f = false -> strip (float_str f) <> []) ->
  forall v,
    is_blank v = true
    <-> isna v = true \/ exists s, v = Str s /\ forallb is_space s = true.
Proof.
  intros Hfloat v. rewrite is_blank_iff, <- strip_nil.
  destruct v as [|s|z|f|b]; simpl.
  - split; auto.
  - split.
    + intros [H|H]; [discriminate|]. right. exists s. rewrite <- strip_nil.
      auto.
    + intros [H|(s' & E & H)]; [discriminate|]. inversion E; subst.
      right. rewrite strip_nil. exact H.
  - split.
    + intros [H|H]; [discriminate|]. destruct (str_int_not_blank z H).
    + intros [H|(s' & E & _)]; discriminate.
  - split.
    + intros [H|H]; [auto|]. left.
      destruct (PrimFloat.is_nan f) eqn:E; [reflexivity|].
      destruct (Hfloat f E H).
    + intros [H|(s' & E & _)]; [auto | discriminate].
  - split.
    + intros [H|H]; [discriminate|]. destruct b; vm_compute in H;
        discriminate.
    + intros [H|(s' & E & _)]; discriminate.
Qed.




End Script.


(** ** Examples and witnesses on the demo world *)

Lemma ascii_decimal_ascii c : c < 128 -> ascii_decimal c = ascii_decimal c.
Proof. reflexivity. Qed.

Lemma ascii_decimal_space c : is_space c = true -> ascii_decimal c = None.
Proof.
  unfold is_space, ascii_decimal. intros H.
  destruct ((48 <=? c) && (c <=? 57)) eqn:E; [|reflexivity].
  apply andb_prop in E as [E1 E2]. apply N.leb_le in E1, E2.
  repeat (apply orb_prop in H as [H|H]);
    repeat match goal with
           | H : (_ && _) = true |- _ => apply andb_prop in H as [? ?]
           | H : (_ <=? _) = true |- _ => apply N.leb_le in H
           | H : (_ =? _) = true |- _ => apply N.eqb_eq in H
           end; lia.
Qed.

Local Abbreviation demo_extract :=
  (extract_price_range_from_html ascii_decimal plain_text).

Local Abbreviation demo_main :=
  (main ascii_decimal plain_text demo_float_str demo_list_repr nat demo_get
     demo_read_csv).

Lemma demo_read : demo_read_csv 0%nat (input demo_args) = Ok demo_frame.
Proof. reflexivity. Qed.

Lemma demo_has_url_col : url_col demo_args ∈ columns demo_frame.
Proof. refine (bool_decide_unpack _ _). vm_compute. exact I. Qed.


(** The spec's examples of the extractor. *)
Example extract_range_example :
  demo_extract (lit "Price Range: 8-9 points") = Ok (Some (8, 9)%Z).
Proof. vm_compute. reflexivity. Qed.

Example extract_range_spaced_example :
  demo_extract (lit "price RANGE:   8  -  9   POINTS") = Ok (Some (8, 9)%Z).
Proof. vm_compute. reflexivity. Qed.

Example extract_single_example :
  demo_extract (lit "Price Range: 5 points") = Ok (Some (5, 5)%Z).
Proof. vm_compute. reflexivity. Qed.

Example extract_none_example :
  demo_extract (lit "No price on this page") = Ok None.
Proof. vm_compute. reflexivity. Qed.

Example extract_single_then_range_example :
  demo_extract (lit "Price Range: 5 points. Price Range: 8-9 points")
  = Ok (Some (8, 9)%Z).
Proof. vm_compute. reflexivity. Qed.

(** The phrase itself is literal: two spaces inside it are no match. *)
Example extract_phrase_literal_example :
  demo_extract (lit "Price  Range: 8-9 points") = Ok None.
Proof. vm_compute. reflexivity. Qed.





(** C3 as stated fails: a page that gives the bounds high-first yields a
    pair with [low > high]. *)
Lemma extract_pair_unordered :
  demo_extract (lit "Price Range: 9-8 points") = Ok (Some (9, 8)%Z)
  /\ ~ (9 <= 8)%Z.
Proof. split; [vm_compute; reflexivity | lia]. Qed.

(** Witness of C3 as amended. *)
Lemma extract_pair_order_witness :
  (5 = 5 /\ 5 <= 5)%Z.
Proof.
  apply (extract_pair_order ascii_decimal plain_text
           ascii_decimal_ascii ascii_decimal_space
           (lit "Price Range: 5 points") (lit "Price Range: 5 points")
           5%Z 5%Z eq_refl).
  - vm_compute. reflexivity.
  - apply (search_range_None _ ascii_decimal_ascii ascii_decimal_space).
    vm_compute. reflexivity.
Defined.

(** The spec's end-to-end examples, on the rows of the demo frame: the page
    with a range, the missing URL, the page that answers 404, the page with
    a single value, the URL of spaces. *)
Example demo_output_cells :
  (fun pd : text * DataFrame =>
     (pd.1,
      map (fun k => (cell_at pd.2 k low_high_col, cell_at pd.2 k low_col,
                     cell_at pd.2 k high_col)) [0; 1; 2; 3; 4]%nat))
    <$> written nat (demo_main demo_args 0%nat)
  = [(lit "out.csv",
      [(Some (Str (lit "8-9")), Some (Int 8), Some (Int 9));
       (Some (Str (lit "N/A")), Some NA, Some NA);
       (Some (Str (lit "N/A")), Some NA, Some NA);
       (Some (Str (lit "5-5")), Some (Int 5), Some (Int 5));
       (Some (Str (lit "N/A")), Some NA, Some NA)])].
Proof. vm_compute. reflexivity. Qed.

Example demo_requests :
  requested (trace nat (demo_main demo_args 0%nat))
  = [lit "https://example.test/draft"; lit "https://example.test/gone";
     lit "https://example.test/single"].
Proof. vm_compute. reflexivity. Qed.

(** Some pauses: the default delay (the float nearest 0.35), a negative
    delay and a NaN delay (both clamped to 0), a long one, and two that are
    too long for the clock. *)
Example time_sleep_examples :
  time_sleep (py_max 0 0x1.6666666666666p-2) = Ok tt
  /\ time_sleep (py_max 0 (-1)) = Ok tt
  /\ time_sleep (py_max 0 PrimFloat.nan) = Ok tt
  /\ time_sleep (py_max 0 9.2e9) = Ok tt
  /\ time_sleep (py_max 0 1e10) = Raise OverflowError
  /\ time_sleep (py_max 0 PrimFloat.infinity) = Raise OverflowError.
Proof. vm_compute. split_and!; reflexivity. Qed.





Lemma demo_lacks_url : url_col demo_args_bad ∉ columns demo_frame.
Proof. refine (bool_decide_unpack _ _). vm_compute. exact I. Qed.

(** Witness of C6: the demo frame has no column "url". *)
Lemma missing_url_column_exits_witness :
  exit nat (demo_main demo_args_bad 0%nat)
  = SystemExit
      (lit "URL column 'url' not found. Available columns: ['name', 'smogon_draft_url']")
  /\ written nat (demo_main demo_args_bad 0%nat) = [].
Proof.
  destruct (missing_url_column_exits ascii_decimal plain_text demo_float_str
              demo_list_repr nat demo_get demo_read_csv demo_args_bad 0%nat
              demo_frame demo_read demo_lacks_url)
    as (He & _ & _ & Hw & _).
  split; [exact He | exact Hw].
Defined.



(** Witness of C9: a first run from world 0 and a second from world 3. *)
Lemma main_deterministic_witness :
  written nat (demo_main demo_args 0%nat)
  = written nat (demo_main demo_args 3%nat).
Proof.
  apply (main_deterministic ascii_decimal plain_text demo_float_str
           demo_list_repr nat demo_get demo_read_csv demo_args 0%nat 3%nat).
  - reflexivity.
  - intros w w' url ua t. reflexivity.
Defined.


(** Witness of X1: a returned pair read back on the page. *)
Lemma extract_pair_from_page_witness :
  (exists n d1 d2,
      range_at ascii_decimal (lit "Cost. Price Range: 8-9 points") n d1 d2
      /\ (forall j e1 e2,
            range_at ascii_decimal (lit "Cost. Price Range: 8-9 points")
              j e1 e2 -> (n <= j)%nat)
      /\ 8%Z = int_of ascii_decimal d1 /\ 9%Z = int_of ascii_decimal d2)
  \/ ((forall n d1 d2,
         ~ range_at ascii_decimal (lit "Cost. Price Range: 8-9 points")
             n d1 d2)
      /\ exists n d,
          single_at ascii_decimal (lit "Cost. Price Range: 8-9 points") n d
          /\ (forall j e,
                single_at ascii_decimal
                  (lit "Cost. Price Range: 8-9 points") j e -> (n <= j)%nat)
          /\ 8%Z = int_of ascii_decimal d /\ 9%Z = int_of ascii_decimal d).
Proof.
  apply (extract_pair_from_page ascii_decimal plain_text
           ascii_decimal_ascii ascii_decimal_space
           (lit "Cost. Price Range: 8-9 points")
           (lit "Cost. Price Range: 8-9 points") 8%Z 9%Z eq_refl).
  vm_compute. reflexivity.
Defined.

(** Witness of X2. *)
Lemma extract_pair_nonneg_witness : (0 <= 8)%Z /\ (0 <= 9)%Z.
Proof.
  apply (extract_pair_nonneg ascii_decimal plain_text
           (lit "Price Range: 8-9 points") 8%Z 9%Z).
  vm_compute. reflexivity.
Defined.

(** Witness of X3: the range form whose first integer has 4301 digits. *)
Lemma extract_raises_iff_witness :
  plain_text demo_long_range = Raise ValueError
  \/ (ValueError = ValueError
      /\ exists t,
          plain_text demo_long_range = Ok t
          /\ ((exists n d1 d2,
                  range_at ascii_decimal t n d1 d2
                  /\ (forall j e1 e2,
                        range_at ascii_decimal t j e1 e2 -> (n <= j)%nat)
                  /\ ((INT_MAX_STR_DIGITS < length d1)%nat
                      \/ (INT_MAX_STR_DIGITS < length d2)%nat))
              \/ ((forall n d1 d2, ~ range_at ascii_decimal t n d1 d2)
                  /\ exists n d,
                      single_at ascii_decimal t n d
                      /\ (forall j e,
                            single_at ascii_decimal t j e -> (n <= j)%nat)
                      /\ (INT_MAX_STR_DIGITS < length d)%nat))).
Proof.
  apply (proj1 (extract_raises_iff ascii_decimal plain_text
                  ascii_decimal_ascii ascii_decimal_space
                  demo_long_range ValueError)).
  vm_compute. reflexivity.
Defined.

(** Witness of X4: the empty page, and a page of words. *)
Lemma extract_no_digit_none_witness :
  demo_extract [] = Ok None
  /\ demo_extract (lit "Price Range: eight-nine points") = Ok None.
Proof.
  split.
  - apply (extract_no_digit_none ascii_decimal plain_text
             ascii_decimal_ascii ascii_decimal_space [] [] eq_refl).
    reflexivity.
  - apply (extract_no_digit_none ascii_decimal plain_text
             ascii_decimal_ascii ascii_decimal_space
             (lit "Price Range: eight-nine points")
             (lit "Price Range: eight-nine points") eq_refl).
    vm_compute. reflexivity.
Defined.





(** Witness of X9: the first run goes from world 0 to world 3, where the
    reader gives back the frame it wrote. *)
Lemma rerun_writes_same_frame_witness :
  written nat
    (main ascii_decimal plain_text demo_float_str demo_list_repr nat
       demo_get demo_read_again demo_args 3%nat)
  = [(lit "out.csv", demo_out_frame)].
Proof.
  apply (rerun_writes_same_frame ascii_decimal plain_text demo_float_str
           demo_list_repr nat demo_get demo_read_again demo_args
           0%nat 3%nat demo_frame demo_out_frame demo_out_frame).
  - reflexivity.
  - exact demo_has_url_col.
  - vm_compute. reflexivity.
  - reflexivity.
  - reflexivity.
  - reflexivity.
  - intros k c _. reflexivity.
  - intros w w' url ua t. reflexivity.
Defined.

(** Witness of X10: a URL of three spaces, with the demo [str] of
    floats. *)
Lemma skipped_url_cells_witness :
  is_blank demo_float_str (Str (lit "   ")) = true.
Proof.
  apply (skipped_url_cells demo_float_str).
  - intros f _. vm_compute. discriminate.
  - right. exists (lit "   "). split; reflexivity.
Defined.

